(** * KeyboardControl: from sampled keys to joint commands

    Shallow embedding of [python/social_bot/keybo_control.py].

    The class keeps two control scalars (speed, turning), a three-slot
    gripper offset, a gripper flag, two step sizes and two decay factors.
    [get_agent_actions] samples one key, decays the scalars, applies the
    key and projects the state on an action list chosen by the agent type.

    Python attribute writes become explicit state passing in a small
    state/exception monad [Py]; list indexing raises [IndexError] out of
    range as in Python; [logging.info] appends to a log carried by the
    world; the terminal is the list of what its coming polls will find.
    The arithmetic is kept behind the interface [PyNumber], with two
    instances: [binary64] (what CPython computes) and [exact] (the
    rationals, for statements made over exact arithmetic).  The simulation
    loop of [main] is outside the embedding; [calls] and [reachable] stand
    for the way it drives the instance. *)

From Stdlib Require Import ZArith QArith Qabs Qpower Lia Lqa.
From Stdlib Require Import Floats.PrimFloat Numbers.Cyclic.Int63.Uint63.
From stdpp Require Import base list strings.

(** ** Numbers *)

(** The operations the source applies to its numbers.  [lit q] is the value
    of the literal written [q] in the source ([0], [0.5], [0.01], ...). *)
Class PyNumber (num : Type) := {
  lit : Q -> num;
  neg : num -> num;
  add : num -> num -> num;
  sub : num -> num -> num;
  mul : num -> num -> num;
  lt : num -> num -> bool;
  gt : num -> num -> bool
}.

Declare Scope py_scope.
Delimit Scope py_scope with py.
Notation "x + y" := (add x y) : py_scope.
Notation "x - y" := (sub x y) : py_scope.
Notation "x * y" := (mul x y) : py_scope.
Notation "- x" := (neg x) : py_scope.
Notation "x <? y" := (lt x y) : py_scope.
Notation "x >? y" := (gt x y) : py_scope.

(** Python floats are IEEE 754 binary64, which is what Rocq's primitive
    floats are.  A decimal literal denotes the double nearest to it; the
    correctly rounded quotient of its numerator by its denominator (both
    exact doubles for the literals of this file) is that double.  The
    integer literal [0] becomes [+0.0]: every operation of the source that
    meets it has a float on the other side and converts it so. *)
Definition float_of_Z (z : Z) : float :=
  if (z <? 0)%Z then PrimFloat.opp (PrimFloat.of_uint63 (Uint63.of_Z (- z)))
  else PrimFloat.of_uint63 (Uint63.of_Z z).

Definition float_of_literal (q : Q) : float :=
  PrimFloat.div (float_of_Z (Qnum q)) (float_of_Z (Zpos (Qden q))).

#[export] Instance binary64 : PyNumber float := {|
  lit := float_of_literal;
  neg := PrimFloat.opp;
  add := PrimFloat.add;
  sub := PrimFloat.sub;
  mul := PrimFloat.mul;
  lt := PrimFloat.ltb;
  gt := fun x y => PrimFloat.ltb y x
|}.

(** Exact arithmetic: the rationals, compared with [Qeq]. *)
#[export] Instance exact : PyNumber Q := {|
  lit := fun q => q;
  neg := Qopp;
  add := Qplus;
  sub := Qminus;
  mul := Qmult;
  lt := fun x y => negb (Qle_bool y x);
  gt := fun x y => negb (Qle_bool x y)
|}.

(** ** The object and the world around it *)

Record KeyboardControl (num : Type) := {
  _speed : num;
  _turning : num;
  _gripper_pos : list num;
  _gripper_open : bool;
  _wheel_step : num;
  _gripper_step : num;
  _speed_decay : num;
  _turning_decay : num
}.
Arguments _speed {num} _.
Arguments _turning {num} _.
Arguments _gripper_pos {num} _.
Arguments _gripper_open {num} _.
Arguments _wheel_step {num} _.
Arguments _gripper_step {num} _.
Arguments _speed_decay {num} _.
Arguments _turning_decay {num} _.

(** [self] is the instance; [info_log] collects what [logging.info] emits,
    oldest first; [terminal] lists what the coming polls of the terminal
    will find, in order: [None] when no character is pending, [Some c] for
    the character read.  An exhausted list is a terminal on which nothing
    more is typed. *)
Record world (num : Type) := {
  self : KeyboardControl num;
  info_log : list string;
  terminal : list (option string)
}.
Arguments self {num} _.
Arguments info_log {num} _.
Arguments terminal {num} _.

Inductive exception := IndexError.

Inductive outcome (A : Type) :=
| Return (a : A)
| Raise (e : exception).
Arguments Return {A} a.
Arguments Raise {A} e.

Definition Py (num A : Type) : Type := world num -> outcome (A * world num).

#[export] Instance Py_ret {num} : MRet (Py num) :=
  fun A a w => Return (a, w).

#[export] Instance Py_bind {num} : MBind (Py num) :=
  fun A B f m w =>
    match m w with
    | Return (a, w') => f a w'
    | Raise e => Raise e
    end.

Section Program.
Context {num : Type} `{PyNumber num}.
Local Open Scope py_scope.

Definition this : Py num (KeyboardControl num) :=
  fun w => Return (self w, w).

Definition store (s : KeyboardControl num) : Py num () :=
  fun w => Return ((), {| self := s; info_log := info_log w;
                          terminal := terminal w |}).

(** [l[i]] as an expression: [IndexError] when [i] is out of range. *)
Definition getitem (l : list num) (i : nat) : Py num num :=
  fun w =>
    match l !! i with
    | Some x => Return (x, w)
    | None => Raise IndexError
    end.

(** [l[i] = v]: the list with slot [i] replaced, [IndexError] out of range. *)
Definition setitem (l : list num) (i : nat) (v : num) : Py num (list num) :=
  fun w =>
    if decide (i < length l)%nat then Return (<[i := v]> l, w)
    else Raise IndexError.

Definition logging_info (msg : string) : Py num () :=
  fun w => Return ((), {| self := self w; info_log := info_log w ++ [msg];
                          terminal := terminal w |}).

(** Attribute writes, one per attribute the source assigns after
    construction. *)
Definition set_speed (v : num) (s : KeyboardControl num) : KeyboardControl num :=
  {| _speed := v; _turning := _turning s; _gripper_pos := _gripper_pos s;
     _gripper_open := _gripper_open s; _wheel_step := _wheel_step s;
     _gripper_step := _gripper_step s; _speed_decay := _speed_decay s;
     _turning_decay := _turning_decay s |}.

Definition set_turning (v : num) (s : KeyboardControl num) : KeyboardControl num :=
  {| _speed := _speed s; _turning := v; _gripper_pos := _gripper_pos s;
     _gripper_open := _gripper_open s; _wheel_step := _wheel_step s;
     _gripper_step := _gripper_step s; _speed_decay := _speed_decay s;
     _turning_decay := _turning_decay s |}.

Definition set_gripper_pos (v : list num) (s : KeyboardControl num) : KeyboardControl num :=
  {| _speed := _speed s; _turning := _turning s; _gripper_pos := v;
     _gripper_open := _gripper_open s; _wheel_step := _wheel_step s;
     _gripper_step := _gripper_step s; _speed_decay := _speed_decay s;
     _turning_decay := _turning_decay s |}.

Definition set_gripper_open (v : bool) (s : KeyboardControl num) : KeyboardControl num :=
  {| _speed := _speed s; _turning := _turning s; _gripper_pos := _gripper_pos s;
     _gripper_open := v; _wheel_step := _wheel_step s;
     _gripper_step := _gripper_step s; _speed_decay := _speed_decay s;
     _turning_decay := _turning_decay s |}.

Definition set_wheel_step (v : num) (s : KeyboardControl num) : KeyboardControl num :=
  {| _speed := _speed s; _turning := _turning s; _gripper_pos := _gripper_pos s;
     _gripper_open := _gripper_open s; _wheel_step := v;
     _gripper_step := _gripper_step s; _speed_decay := _speed_decay s;
     _turning_decay := _turning_decay s |}.

Definition set_gripper_step (v : num) (s : KeyboardControl num) : KeyboardControl num :=
  {| _speed := _speed s; _turning := _turning s; _gripper_pos := _gripper_pos s;
     _gripper_open := _gripper_open s; _wheel_step := _wheel_step s;
     _gripper_step := v; _speed_decay := _speed_decay s;
     _turning_decay := _turning_decay s |}.

(** ** The methods *)

Definition __init__ : KeyboardControl num :=
  {| _speed := lit 0;
     _turning := lit 0;
     _gripper_pos := [lit 0; lit 0; lit 0];
     _gripper_open := true;
     _wheel_step := lit 0.5;
     _gripper_step := lit 0.02;
     _speed_decay := lit 0.9;
     _turning_decay := lit 0.5 |}.

Definition reset : Py num () :=
  s ← this; store (set_gripper_pos [lit 0; lit 0; lit 0] s);;
  s ← this; store (set_gripper_open true s);;
  s ← this; store (set_speed (lit 0) s);;
  s ← this; store (set_turning (lit 0) s).

(** The zero-wait poll: one character if one is pending, [None] otherwise.
    The raw mode it sets and restores around the read leaves no trace in
    the world. *)
Definition _get_key : Py num (option string) :=
  fun w =>
    match terminal w with
    | [] => Return (None, w)
    | key :: rest =>
        Return (key, {| self := self w; info_log := info_log w;
                        terminal := rest |})
    end.

Definition _to_diff_drive_action : Py num (list num) :=
  s ← this;
  let left_wheel_joint := _speed s + _turning s in
  let right_wheel_joint := _speed s - _turning s in
  let actions := [left_wheel_joint; right_wheel_joint] in
  mret actions.

Definition _to_youbot_action : Py num (list num) :=
  s ← this;
  let wheel_joint_bl := _speed s + _turning s in
  let wheel_joint_br := _speed s - _turning s in
  let wheel_joint_fl := _speed s + _turning s in
  let wheel_joint_fr := _speed s - _turning s in
  let gripper_joint := if _gripper_open s then lit 0.5 else - lit 0.5 in
  pos1 ← getitem (_gripper_pos s) 1;
  pos0 ← getitem (_gripper_pos s) 0;
  let actions :=
    [ (* arm joints *)
      lit 0;
      lit 0.5 + pos1;
      lit 0.3;
      pos0 - lit 0.1;
      lit 0.2;
      lit 0;
      (* palm joint and gripper joints *)
      lit 0;
      gripper_joint;
      gripper_joint;
      (* wheel joints *)
      wheel_joint_bl;
      wheel_joint_br;
      wheel_joint_fl;
      wheel_joint_fr ] in
  mret actions.

Definition _to_pr2_action : Py num (list num) :=
  s ← this;
  let wheel_joint_bl := _speed s + _turning s in
  let wheel_joint_br := _speed s - _turning s in
  let wheel_joint_fl := _speed s + _turning s in
  let wheel_joint_fr := _speed s - _turning s in
  let actions :=
    [ wheel_joint_fl; wheel_joint_fl; wheel_joint_fr; wheel_joint_fr;
      wheel_joint_bl; wheel_joint_bl; wheel_joint_br; wheel_joint_br ] in
  mret actions.

Definition _convert_to_agent_action (agent_type : string) : Py num (list num) :=
  if decide (agent_type = "pioneer2dx_noplugin" ∨ agent_type = "turtlebot") then
    _to_diff_drive_action
  else if decide (agent_type = "youbot_noplugin") then
    _to_youbot_action
  else if decide (agent_type = "pr2_noplugin") then
    _to_pr2_action
  else
    let actions := [] in
    logging_info ("agent type not supported yet: " +:+ agent_type);;
    mret actions.

Definition get_agent_actions (agent_type : string) : Py num (list num) :=
  key ← _get_key;
  s ← this; store (set_speed (_speed s * _speed_decay s) s);;
  s ← this; store (set_turning (_turning s * _turning_decay s) s);;
  s ← this;
  (* movements *)
  (if decide (key = Some "w") then
     store (set_speed (if _speed s <? - lit 0.01 then lit 0
                       else _speed s + _wheel_step s) s)
   else if decide (key = Some "s") then
     store (set_speed (if _speed s >? lit 0.01 then lit 0
                       else _speed s - _wheel_step s) s)
   else if decide (key = Some "a") then
     store (set_turning (if _turning s >? lit 0.01 then lit 0
                         else _turning s - _wheel_step s) s)
   else if decide (key = Some "d") then
     store (set_turning (if _turning s <? - lit 0.01 then lit 0
                         else _turning s + _wheel_step s) s)
   (* gripper pose *)
   else if decide (key = Some "i") then
     x ← getitem (_gripper_pos s) 0;
     l ← setitem (_gripper_pos s) 0 (x - _gripper_step s);
     store (set_gripper_pos l s)
   else if decide (key = Some "k") then
     x ← getitem (_gripper_pos s) 0;
     l ← setitem (_gripper_pos s) 0 (x + _gripper_step s);
     store (set_gripper_pos l s)
   else if decide (key = Some "j") then
     x ← getitem (_gripper_pos s) 1;
     l ← setitem (_gripper_pos s) 1 (x - _gripper_step s);
     store (set_gripper_pos l s)
   else if decide (key = Some "l") then
     x ← getitem (_gripper_pos s) 1;
     l ← setitem (_gripper_pos s) 1 (x + _gripper_step s);
     store (set_gripper_pos l s)
   (* gripper finger *)
   else if decide (key = Some "e") then
     store (set_gripper_open (negb (_gripper_open s)) s)
   (* set step size *)
   else if decide (key = Some "+") then
     store (set_wheel_step (_wheel_step s * lit 1.5) s);;
     s ← this; store (set_gripper_step (_gripper_step s * lit 1.5) s)
   else if decide (key = Some "-") then
     store (set_wheel_step (_wheel_step s * lit 0.7) s);;
     s ← this; store (set_gripper_step (_gripper_step s * lit 0.7) s)
   else mret ());;
  _convert_to_agent_action agent_type.

(** What the next poll of the terminal finds. *)
Definition pending (t : list (option string)) : option string :=
  match t with
  | [] => None
  | key :: _ => key
  end.

(** One call on the instance [s] with the log [l], whose poll finds [key]. *)
Definition call (key : option string) (agent_type : string)
    (s : KeyboardControl num) (l : list string) : outcome (list num * world num) :=
  get_agent_actions agent_type {| self := s; info_log := l; terminal := [key] |}.

(** The states an instance can be in: constructed, then any sequence of
    [reset()] and of returning [get_agent_actions] calls, as in the loop
    of [main]. *)
Inductive reachable : KeyboardControl num -> Prop :=
| reachable_init : reachable __init__
| reachable_reset s l t w' :
    reachable s ->
    reset {| self := s; info_log := l; terminal := t |} = Return ((), w') ->
    reachable (self w')
| reachable_call s l t agent_type actions w' :
    reachable s ->
    get_agent_actions agent_type {| self := s; info_log := l; terminal := t |} =
      Return (actions, w') ->
    reachable (self w').

Definition supported (agent_type : string) : Prop :=
  agent_type = "pioneer2dx_noplugin" ∨ agent_type = "turtlebot" ∨
  agent_type = "youbot_noplugin" ∨ agent_type = "pr2_noplugin".

(** ** The state after a call, in closed form

    [decay] and [key_effect] restate the first two phases of
    [get_agent_actions] as functions on the state;
    [get_agent_actions_run] below shows that the method computes them. *)
Definition decay (s : KeyboardControl num) : KeyboardControl num :=
  set_turning (_turning s * _turning_decay s)
    (set_speed (_speed s * _speed_decay s) s).

Definition key_effect (key : option string) (s : KeyboardControl num)
  : KeyboardControl num :=
  if decide (key = Some "w") then
    set_speed (if _speed s <? - lit 0.01 then lit 0
               else _speed s + _wheel_step s) s
  else if decide (key = Some "s") then
    set_speed (if _speed s >? lit 0.01 then lit 0
               else _speed s - _wheel_step s) s
  else if decide (key = Some "a") then
    set_turning (if _turning s >? lit 0.01 then lit 0
                 else _turning s - _wheel_step s) s
  else if decide (key = Some "d") then
    set_turning (if _turning s <? - lit 0.01 then lit 0
                 else _turning s + _wheel_step s) s
  else if decide (key = Some "i") then
    set_gripper_pos (alter (fun x => x - _gripper_step s) 0%nat (_gripper_pos s)) s
  else if decide (key = Some "k") then
    set_gripper_pos (alter (fun x => x + _gripper_step s) 0%nat (_gripper_pos s)) s
  else if decide (key = Some "j") then
    set_gripper_pos (alter (fun x => x - _gripper_step s) 1%nat (_gripper_pos s)) s
  else if decide (key = Some "l") then
    set_gripper_pos (alter (fun x => x + _gripper_step s) 1%nat (_gripper_pos s)) s
  else if decide (key = Some "e") then
    set_gripper_open (negb (_gripper_open s)) s
  else if decide (key = Some "+") then
    set_gripper_step (_gripper_step s * lit 1.5)
      (set_wheel_step (_wheel_step s * lit 1.5) s)
  else if decide (key = Some "-") then
    set_gripper_step (_gripper_step s * lit 0.7)
      (set_wheel_step (_wheel_step s * lit 0.7) s)
  else s.

Definition tick (key : option string) (s : KeyboardControl num) : KeyboardControl num :=
  key_effect key (decay s).

(** What holds of every reachable state: three gripper slots, the third
    one the [0] it was created with, and the decay factors of [__init__]. *)
Definition well_formed (s : KeyboardControl num) : Prop :=
  (∃ p0 p1, _gripper_pos s = [p0; p1; lit 0]) ∧
  _speed_decay s = lit 0.9 ∧ _turning_decay s = lit 0.5.

(** [n] consecutive calls, as the loop of [main] makes them; the action
    lists are collected in call order. *)
Fixpoint calls (n : nat) (agent_type : string) : Py num (list (list num)) :=
  match n with
  | O => mret []
  | S n =>
      actions ← get_agent_actions agent_type;
      rest ← calls n agent_type;
      mret (actions :: rest)
  end.

(** As many calls as there are entries in [keys], on the instance [s] with
    the log [l]; the polls find the entries of [keys] in turn. *)
Definition run (keys : list (option string)) (agent_type : string)
    (s : KeyboardControl num) (l : list string)
  : outcome (list (list num) * world num) :=
  calls (length keys) agent_type
    {| self := s; info_log := l; terminal := keys |}.

(** The value a run returned, if it returned. *)
Definition returned {A : Type} (o : outcome (A * world num)) : option A :=
  match o with
  | Return (a, _) => Some a
  | Raise _ => None
  end.

End Program.

(** ** Sequences of calls *)

(** The keys that have a branch in [get_agent_actions]. *)
Definition key_table : list string :=
  ["w"; "s"; "a"; "d"; "i"; "k"; "j"; "l"; "e"; "+"; "-"].

(** What [n] consecutive polls of the terminal [t] find. *)
Fixpoint polled (n : nat) (t : list (option string)) : list (option string) :=
  match n with
  | O => []
  | S n => pending t :: polled n (tail t)
  end.

(** How many of the polled keys are the key [c]. *)
Definition presses (c : string) (keys : list (option string)) : nat :=
  length (filter (fun key => key = Some c) keys).

(** ** Exact arithmetic: how a scalar sits against the wheel step

    Every factor the program multiplies by (0.9, 0.5, 1.5, 0.7) has exactly
    one factor 2 in its denominator.  So a decay pushes a scalar one power
    of 2 below the wheel step, and the sum or difference of the two cannot
    cancel.  [odd_multiple x step] says that [x] is [step * a / b] with [a]
    odd; [halved_odd_multiple] that the denominator is moreover even. *)
Definition odd_multiple (x step : Q) : Prop :=
  ∃ a b : Z, Z.odd a = true ∧ b ≠ 0%Z ∧ (x * inject_Z b == step * inject_Z a)%Q.

Definition halved_odd_multiple (x step : Q) : Prop :=
  ∃ a b : Z,
    Z.odd a = true ∧ b ≠ 0%Z ∧ (x * inject_Z (2 * b) == step * inject_Z a)%Q.

Definition zero_or (P : Q -> Q -> Prop) (x step : Q) : Prop :=
  (x == 0)%Q ∨ P x step.

Definition exact_invariant (s : KeyboardControl Q) : Prop :=
  (0 < _wheel_step s)%Q ∧
  zero_or odd_multiple (_speed s) (_wheel_step s) ∧
  zero_or odd_multiple (_turning s) (_wheel_step s).

(** * Facts about the embedding *)

Ltac py_run :=
  unfold call, get_agent_actions, reset, _convert_to_agent_action,
    _to_diff_drive_action, _to_youbot_action, _to_pr2_action, _get_key,
    logging_info, getitem, setitem, store, this,
    mbind, Py_bind, mret, Py_ret;
  simpl.

Section Facts.
Context {num : Type} `{PyNumber num}.
Local Open Scope py_scope.

(** The first three phases of a call (poll, decay, key) always return on an
    instance with three gripper slots, and leave [tick] of the polled key. *)
Lemma get_agent_actions_run agent_type s l t :
  length (_gripper_pos s) = 3%nat ->
  get_agent_actions agent_type {| self := s; info_log := l; terminal := t |} =
  _convert_to_agent_action agent_type
    {| self := tick (pending t) s; info_log := l; terminal := tail t |}.
Proof.
  destruct s as [sp tu pos op ws gs sd td]; simpl.
  destruct pos as [|p0 [|p1 [|p2 [|? ?]]]]; try discriminate; intros _.
  unfold get_agent_actions, tick, key_effect, decay.
  unfold _get_key, getitem, setitem, store, this, mbind, Py_bind, mret, Py_ret.
  destruct t as [|key t]; simpl;
    repeat case_decide; try reflexivity; simpl in *; lia.
Qed.

Lemma call_run key agent_type s l :
  length (_gripper_pos s) = 3%nat ->
  call key agent_type s l =
  _convert_to_agent_action agent_type
    {| self := tick key s; info_log := l; terminal := [] |}.
Proof. apply get_agent_actions_run. Qed.

Lemma convert_diff_drive agent_type (w : world num) :
  agent_type = "pioneer2dx_noplugin" ∨ agent_type = "turtlebot" ->
  _convert_to_agent_action agent_type w =
  Return ([_speed (self w) + _turning (self w);
           _speed (self w) - _turning (self w)], w).
Proof.
  intros Hat. unfold _convert_to_agent_action.
  case_decide; [reflexivity | tauto].
Qed.

Lemma convert_youbot (w : world num) p0 p1 :
  _gripper_pos (self w) !! 0%nat = Some p0 ->
  _gripper_pos (self w) !! 1%nat = Some p1 ->
  _convert_to_agent_action "youbot_noplugin" w =
  Return ([lit 0; lit 0.5 + p1; lit 0.3; p0 - lit 0.1; lit 0.2; lit 0;
           lit 0;
           if _gripper_open (self w) then lit 0.5 else - lit 0.5;
           if _gripper_open (self w) then lit 0.5 else - lit 0.5;
           _speed (self w) + _turning (self w);
           _speed (self w) - _turning (self w);
           _speed (self w) + _turning (self w);
           _speed (self w) - _turning (self w)], w).
Proof.
  intros H0 H1. py_run. rewrite H1, H0. reflexivity.
Qed.

Lemma convert_pr2 (w : world num) :
  _convert_to_agent_action "pr2_noplugin" w =
  Return ([_speed (self w) + _turning (self w);
           _speed (self w) + _turning (self w);
           _speed (self w) - _turning (self w);
           _speed (self w) - _turning (self w);
           _speed (self w) + _turning (self w);
           _speed (self w) + _turning (self w);
           _speed (self w) - _turning (self w);
           _speed (self w) - _turning (self w)], w).
Proof. reflexivity. Qed.

Lemma convert_unsupported agent_type (w : world num) :
  ¬ supported agent_type ->
  _convert_to_agent_action agent_type w =
  Return ([], {| self := self w;
                 info_log := info_log w ++
                   ["agent type not supported yet: " +:+ agent_type];
                 terminal := terminal w |}).
Proof.
  unfold supported. intros Hat. unfold _convert_to_agent_action.
  repeat case_decide; first [tauto | reflexivity].
Qed.

(** The projection never writes to the instance. *)
Lemma convert_self agent_type (w w' : world num) actions :
  _convert_to_agent_action agent_type w = Return (actions, w') ->
  self w' = self w.
Proof.
  py_run. repeat case_decide.
  - intros [= _ <-]. reflexivity.
  - destruct (_gripper_pos (self w) !! 1%nat); [|discriminate].
    destruct (_gripper_pos (self w) !! 0%nat); [|discriminate].
    intros [= _ <-]. reflexivity.
  - intros [= _ <-]. reflexivity.
  - intros [= _ <-]. reflexivity.
Qed.

Lemma well_formed_length s : well_formed s -> length (_gripper_pos s) = 3%nat.
Proof. intros [(p0 & p1 & ->) _]. reflexivity. Qed.

Lemma well_formed_init : well_formed __init__.
Proof. split; [exists (lit 0), (lit 0) | split]; reflexivity. Qed.

Lemma well_formed_tick key s : well_formed s -> well_formed (tick key s).
Proof.
  intros [(p0 & p1 & Hpos) [Hsd Htd]].
  destruct s as [sp tu pos op ws gs sd td]; simpl in *; subst.
  unfold tick, key_effect, decay; simpl.
  repeat case_decide; (split; [eexists _, _; reflexivity | split; reflexivity]).
Qed.

Lemma reachable_well_formed s : reachable s -> well_formed s.
Proof.
  induction 1 as [|s l t w' Hs IH Hreset|s l t agent_type actions w' Hs IH Hcall].
  - apply well_formed_init.
  - destruct IH as [_ [Hsd Htd]].
    revert Hreset. py_run. intros [= <-]; simpl.
    split; [exists (lit 0), (lit 0); reflexivity | split; assumption].
  - rewrite get_agent_actions_run in Hcall by (apply well_formed_length, IH).
    apply convert_self in Hcall. rewrite Hcall. simpl.
    apply well_formed_tick, IH.
Qed.

Lemma convert_returns agent_type s l t :
  length (_gripper_pos s) = 3%nat ->
  ∃ actions l',
    _convert_to_agent_action agent_type
      {| self := s; info_log := l; terminal := t |} =
    Return (actions, {| self := s; info_log := l'; terminal := t |}).
Proof.
  intros Hlen.
  destruct (_gripper_pos s) as [|p0 [|p1 ?]] eqn:Hpos; try discriminate.
  py_run. repeat case_decide; simpl; rewrite ?Hpos; simpl; eauto.
Qed.

Lemma get_agent_actions_returns agent_type s l t :
  well_formed s ->
  ∃ actions l',
    get_agent_actions agent_type {| self := s; info_log := l; terminal := t |} =
    Return (actions, {| self := tick (pending t) s; info_log := l';
                        terminal := tail t |}).
Proof.
  intros Hwf.
  rewrite get_agent_actions_run by apply well_formed_length, Hwf.
  apply convert_returns, well_formed_length, well_formed_tick, Hwf.
Qed.

Lemma call_returns key agent_type s l :
  well_formed s ->
  ∃ actions l',
    call key agent_type s l =
    Return (actions, {| self := tick key s; info_log := l'; terminal := [] |}).
Proof. apply get_agent_actions_returns. Qed.

Lemma get_agent_actions_self agent_type s l t actions w' :
  well_formed s ->
  get_agent_actions agent_type {| self := s; info_log := l; terminal := t |} =
    Return (actions, w') ->
  self w' = tick (pending t) s.
Proof.
  intros Hwf Hcall.
  destruct (get_agent_actions_returns agent_type s l t Hwf) as (a & l' & Hret).
  rewrite Hret in Hcall. injection Hcall as _ <-. reflexivity.
Qed.

Lemma call_self key agent_type s l actions w' :
  well_formed s ->
  call key agent_type s l = Return (actions, w') ->
  self w' = tick key s.
Proof. apply get_agent_actions_self. Qed.

Lemma reachable_tick key s : reachable s -> reachable (tick key s).
Proof.
  intros Hs.
  destruct (call_returns key "" s [] (reachable_well_formed s Hs)) as (a & l' & Hret).
  apply (reachable_call _ _ _ _ _ _ Hs Hret).
Qed.

Lemma run_returns keys agent_type s l :
  well_formed s ->
  ∃ history l',
    run keys agent_type s l =
    Return (history, {| self := foldl (fun s key => tick key s) s keys;
                        info_log := l'; terminal := [] |}).
Proof.
  revert s l. induction keys as [|key keys IH]; intros s l Hwf.
  - exists [], l. reflexivity.
  - destruct (get_agent_actions_returns agent_type s l (key :: keys) Hwf)
      as (a & l1 & Hret).
    destruct (IH (tick key s) l1 (well_formed_tick key s Hwf)) as (h & l2 & Hrest).
    exists (a :: h), l2. unfold run in *. simpl in *.
    unfold mbind at 1, Py_bind. rewrite Hret.
    unfold mbind at 1, Py_bind. rewrite Hrest. reflexivity.
Qed.

Lemma reachable_ticks keys s :
  reachable s -> reachable (foldl (fun s key => tick key s) s keys).
Proof.
  revert s. induction keys as [|key keys IH]; intros s Hs; simpl.
  - exact Hs.
  - apply IH, reachable_tick, Hs.
Qed.

End Facts.

(** * Properties that hold for every arithmetic *)

Ltac tick_cases :=
  unfold tick, key_effect, decay;
  repeat case_decide; simplify_eq; simpl; try done.

Section EveryArithmetic.
Context {num : Type} `{PyNumber num}.
Local Open Scope py_scope.

Lemma tick_steps_frame key (s : KeyboardControl num) :
  key ≠ Some "+" -> key ≠ Some "-" ->
  _wheel_step (tick key s) = _wheel_step s ∧
  _gripper_step (tick key s) = _gripper_step s.
Proof. intros Hp Hm. destruct s. tick_cases. Qed.

Lemma ticks_steps_frame keys (s : KeyboardControl num) :
  Forall (fun k => k ≠ Some "+" ∧ k ≠ Some "-") keys ->
  _wheel_step (foldl (fun s key => tick key s) s keys) = _wheel_step s ∧
  _gripper_step (foldl (fun s key => tick key s) s keys) = _gripper_step s.
Proof.
  intros Hkeys. revert s.
  induction Hkeys as [|key keys [Hp Hm] _ IH]; intros s; simpl.
  - done.
  - destruct (IH (tick key s)) as [-> ->]. by apply tick_steps_frame.
Qed.

(** C3: from every reachable state a call for a supported agent type
    returns, and the length of what it returns is fixed by the agent type
    alone: 2 for the two diff-drive types, 13 for the youbot, 8 for the
    pr2. *)
Theorem action_length_by_agent_type (s : KeyboardControl num) key agent_type l :
  reachable s ->
  supported agent_type ->
  ∃ actions w',
    call key agent_type s l = Return (actions, w') ∧
    (agent_type = "pioneer2dx_noplugin" ∨ agent_type = "turtlebot" ->
     length actions = 2%nat) ∧
    (agent_type = "youbot_noplugin" -> length actions = 13%nat) ∧
    (agent_type = "pr2_noplugin" -> length actions = 8%nat).
Proof.
  intros Hs Hat. apply reachable_well_formed in Hs.
  rewrite call_run by apply well_formed_length, Hs.
  destruct (well_formed_tick key s Hs) as [(p0 & p1 & Hpos) _].
  destruct Hat as [Hat|[Hat|[Hat|Hat]]].
  - rewrite convert_diff_drive by auto. eexists _, _. split; [done|].
    repeat split; intros; try reflexivity; subst; discriminate.
  - rewrite convert_diff_drive by auto. eexists _, _. split; [done|].
    repeat split; intros; try reflexivity; subst; discriminate.
  - subst. rewrite (convert_youbot _ p0 p1) by (simpl; rewrite Hpos; done).
    eexists _, _. split; [done|].
    repeat split; intros; try reflexivity; intuition discriminate.
  - subst. rewrite convert_pr2. eexists _, _. split; [done|].
    repeat split; intros; try reflexivity; intuition discriminate.
Qed.

(** C4: [reset()] returns from every state; afterwards the gripper offset
    is [[0, 0, 0]], the gripper is open, speed and turning are 0, and the
    two step sizes and the two decay factors are what they were.  Nothing
    is logged. *)
Theorem reset_clears_motion_keeps_steps (s : KeyboardControl num) l t :
  ∃ s',
    reset {| self := s; info_log := l; terminal := t |} =
      Return ((), {| self := s'; info_log := l; terminal := t |}) ∧
    _gripper_pos s' = [lit 0; lit 0; lit 0] ∧
    _gripper_open s' = true ∧
    _speed s' = lit 0 ∧
    _turning s' = lit 0 ∧
    _wheel_step s' = _wheel_step s ∧
    _gripper_step s' = _gripper_step s ∧
    _speed_decay s' = _speed_decay s ∧
    _turning_decay s' = _turning_decay s.
Proof. eexists. split; [reflexivity|]. simpl. done. Qed.

(** C6: for an agent type outside the four supported names, a call from a
    reachable state returns (no exception) the empty list, and appends to
    the log exactly one message, which names the agent type. *)
Theorem unsupported_agent_type_is_not_fatal (s : KeyboardControl num) key agent_type l :
  reachable s ->
  ¬ supported agent_type ->
  ∃ s',
    call key agent_type s l =
    Return ([], {| self := s';
                   info_log := l ++ ["agent type not supported yet: " +:+ agent_type];
                   terminal := [] |}).
Proof.
  intros Hs Hat. apply reachable_well_formed in Hs.
  rewrite call_run by apply well_formed_length, Hs.
  rewrite convert_unsupported by done. simpl. eauto.
Qed.

(** C7: a youbot call from a reachable state returns a list whose elements
    7 and 8 are the same value: the literal 0.5 when the gripper is open
    at the time of the projection (the flag after an "e" of this call has
    been applied), the literal -0.5 otherwise. *)
Theorem youbot_gripper_joints (s : KeyboardControl num) key l :
  reachable s ->
  ∃ actions w',
    call key "youbot_noplugin" s l = Return (actions, w') ∧
    _gripper_open (self w') =
      (if decide (key = Some "e") then negb (_gripper_open s)
       else _gripper_open s) ∧
    actions !! 7%nat =
      Some (if _gripper_open (self w') then lit 0.5 else - lit 0.5) ∧
    actions !! 8%nat = actions !! 7%nat.
Proof.
  intros Hs. apply reachable_well_formed in Hs.
  rewrite call_run by apply well_formed_length, Hs.
  destruct (well_formed_tick key s Hs) as [(p0 & p1 & Hpos) _].
  rewrite (convert_youbot _ p0 p1) by (simpl; rewrite Hpos; done).
  eexists _, _. split; [done|]. simpl. split; [|done].
  destruct s. tick_cases.
Qed.

(** C8: a call that samples "+" leaves both step sizes multiplied by 1.5.
    The scaled sizes stay through any later calls that sample neither "+"
    nor "-", and the next increment key uses them: "w", "s", "a", "d" add
    or subtract the scaled wheel step (where they do not zero), "i", "k",
    "j", "l" the scaled gripper step.  A second "+" right after the first
    leaves [step * 1.5 * 1.5]. *)
Theorem plus_scales_the_steps (s : KeyboardControl num) agent_type l keys key :
  reachable s ->
  Forall (fun k => k ≠ Some "+" ∧ k ≠ Some "-") keys ->
  ∃ a1 w1 history w2 a3 w3 a4 w4,
    call (Some "+") agent_type s l = Return (a1, w1) ∧
    _wheel_step (self w1) = _wheel_step s * lit 1.5 ∧
    _gripper_step (self w1) = _gripper_step s * lit 1.5 ∧
    run keys agent_type (self w1) (info_log w1) = Return (history, w2) ∧
    _wheel_step (self w2) = _wheel_step s * lit 1.5 ∧
    _gripper_step (self w2) = _gripper_step s * lit 1.5 ∧
    call key agent_type (self w2) (info_log w2) = Return (a3, w3) ∧
    (let speed := _speed (self w2) * _speed_decay (self w2) in
     let turning := _turning (self w2) * _turning_decay (self w2) in
     let wheel_step := _wheel_step s * lit 1.5 in
     let gripper_step := _gripper_step s * lit 1.5 in
     (key = Some "w" ->
      _speed (self w3) =
        if speed <? - lit 0.01 then lit 0 else speed + wheel_step) ∧
     (key = Some "s" ->
      _speed (self w3) =
        if speed >? lit 0.01 then lit 0 else speed - wheel_step) ∧
     (key = Some "a" ->
      _turning (self w3) =
        if turning >? lit 0.01 then lit 0 else turning - wheel_step) ∧
     (key = Some "d" ->
      _turning (self w3) =
        if turning <? - lit 0.01 then lit 0 else turning + wheel_step) ∧
     (key = Some "i" ->
      _gripper_pos (self w3) !! 0%nat =
        (fun x => x - gripper_step) <$> _gripper_pos (self w2) !! 0%nat) ∧
     (key = Some "k" ->
      _gripper_pos (self w3) !! 0%nat =
        (fun x => x + gripper_step) <$> _gripper_pos (self w2) !! 0%nat) ∧
     (key = Some "j" ->
      _gripper_pos (self w3) !! 1%nat =
        (fun x => x - gripper_step) <$> _gripper_pos (self w2) !! 1%nat) ∧
     (key = Some "l" ->
      _gripper_pos (self w3) !! 1%nat =
        (fun x => x + gripper_step) <$> _gripper_pos (self w2) !! 1%nat)) ∧
    call (Some "+") agent_type (self w1) (info_log w1) = Return (a4, w4) ∧
    _wheel_step (self w4) = _wheel_step s * lit 1.5 * lit 1.5 ∧
    _gripper_step (self w4) = _gripper_step s * lit 1.5 * lit 1.5.
Proof.
  intros Hs Hkeys.
  pose proof (reachable_well_formed s Hs) as Hwf.
  destruct (call_returns (Some "+") agent_type s l Hwf) as (a1 & l1 & H1).
  pose proof (well_formed_tick (Some "+") s Hwf) as Hwf1.
  destruct (run_returns keys agent_type _ l1 Hwf1) as (h & l2 & H2).
  set (s1 := tick (Some "+") s) in *.
  set (s2 := foldl (fun s key => tick key s) s1 keys) in *.
  assert (Hwf2 : well_formed s2).
  { apply reachable_well_formed, reachable_ticks, reachable_tick, Hs. }
  destruct (call_returns key agent_type s2 l2 Hwf2) as (a3 & l3 & H3).
  destruct (call_returns (Some "+") agent_type s1 l1 Hwf1) as (a4 & l4 & H4).
  assert (Hws1 : _wheel_step s1 = _wheel_step s * lit 1.5) by (destruct s; done).
  assert (Hgs1 : _gripper_step s1 = _gripper_step s * lit 1.5) by (destruct s; done).
  destruct (ticks_steps_frame keys s1 Hkeys) as [Hws2 Hgs2].
  fold s2 in Hws2, Hgs2. rewrite Hws1 in Hws2. rewrite Hgs1 in Hgs2.
  eexists a1, _, h, _, a3, _, a4, _.
  split; [exact H1|]. split; [exact Hws1|]. split; [exact Hgs1|].
  split; [exact H2|]. split; [exact Hws2|]. split; [exact Hgs2|].
  split; [exact H3|]. simpl.
  split.
  - rewrite <- Hws2, <- Hgs2.
    destruct Hwf2 as [(p0 & p1 & Hpos) _].
    destruct s2 as [sp tu pos op ws gs sd td]; simpl in *; subst pos.
    repeat split; intros ->; reflexivity.
  - split; [exact H4|]. simpl.
    rewrite <- Hws1, <- Hgs1. destruct s1; done.
Qed.

(** C9: from a reachable state a call returns for every agent type, and
    the instance it leaves behind is the same for all of them, the
    unsupported ones included: the decayed state with the key applied.
    Without a "w" or "s" the speed left is [speed * speed_decay], without
    an "a" or "d" the turning left is [turning * turning_decay], although
    an unsupported agent type gets the empty list. *)
Theorem state_is_updated_for_every_agent_type (s : KeyboardControl num) key agent_type l :
  reachable s ->
  ∃ actions w',
    call key agent_type s l = Return (actions, w') ∧
    (¬ supported agent_type -> actions = []) ∧
    self w' = key_effect key (decay s) ∧
    (key ≠ Some "w" -> key ≠ Some "s" ->
     _speed (self w') = _speed s * _speed_decay s) ∧
    (key ≠ Some "a" -> key ≠ Some "d" ->
     _turning (self w') = _turning s * _turning_decay s) ∧
    (∀ agent_type' l', ∃ actions' w'',
       call key agent_type' s l' = Return (actions', w'') ∧
       self w'' = self w').
Proof.
  intros Hs. apply reachable_well_formed in Hs.
  destruct (call_returns key agent_type s l Hs) as (a & l1 & Hret).
  exists a, {| self := tick key s; info_log := l1; terminal := [] |}.
  split; [exact Hret|]. split; [|split; [reflexivity|]].
  - intros Hat. revert Hret.
    rewrite call_run by apply well_formed_length, Hs.
    rewrite convert_unsupported by done. by intros [= <- _].
  - simpl. split; [|split].
    + intros Hw Hs'. destruct s. tick_cases.
    + intros Ha Hd. destruct s. tick_cases.
    + intros agent_type' l'.
      destruct (call_returns key agent_type' s l' Hs) as (a' & l2 & Hret').
      eauto.
Qed.

(** C10: in every reachable state the third gripper slot holds the [0]
    it was created with; a returning call leaves that slot as it found
    it; and what a call returns does not depend on the slot: overwriting
    it with any value changes no returned action. *)
Theorem gripper_third_slot_stays_zero (s : KeyboardControl num) :
  reachable s ->
  _gripper_pos s !! 2%nat = Some (lit 0) ∧
  (∀ key agent_type l actions w',
     call key agent_type s l = Return (actions, w') ->
     _gripper_pos (self w') !! 2%nat = _gripper_pos s !! 2%nat) ∧
  (∀ v key agent_type l,
     returned (call key agent_type
                 (set_gripper_pos (<[2%nat := v]> (_gripper_pos s)) s) l) =
     returned (call key agent_type s l)).
Proof.
  intros Hs. apply reachable_well_formed in Hs.
  pose proof Hs as [(p0 & p1 & Hpos) _].
  split; [by rewrite Hpos|]. split.
  - intros key agent_type l actions w' Hcall.
    rewrite (call_self _ _ _ _ _ _ Hs Hcall).
    destruct (well_formed_tick key s Hs) as [(q0 & q1 & ->) _].
    by rewrite Hpos.
  - intros v key agent_type l.
    rewrite !call_run
      by (simpl; rewrite ?length_insert; apply well_formed_length, Hs).
    destruct s as [sp tu pos op ws gs sd td]; simpl in *; subst pos.
    unfold tick, key_effect, decay; simpl.
    py_run. repeat case_decide; reflexivity.
Qed.

End EveryArithmetic.

(** * Exact arithmetic *)

Section Exact.
Local Open Scope Q_scope.

(** A factor strictly between 0 and 1 shrinks a nonzero number, keeps its
    sign and does not annihilate it. *)
Lemma decay_shrinks (x c : Q) :
  0 < c -> c < 1 -> ¬ x == 0 ->
  Qabs (x * c) < Qabs x ∧ (0 < x * c <-> 0 < x) ∧ ¬ x * c == 0.
Proof.
  intros Hc0 Hc1 Hx.
  assert (Hsign : 0 < x * c <-> 0 < x).
  { split; intros Hpos; nra. }
  assert (Hnz : ¬ x * c == 0).
  { intros Hz. apply Qmult_integral in Hz. destruct Hz as [Hz|Hz]; [tauto|lra]. }
  split; [|tauto].
  rewrite Qabs_Qmult, (Qabs_pos c) by lra.
  assert (0 < Qabs x).
  { apply Qabs_case; intros; destruct (Qeq_dec x 0); try tauto; lra. }
  nra.
Qed.

(** Parity bookkeeping for [odd_multiple]: what each decay, each step and
    each rescaling of the wheel step does to the numerator and the
    denominator. *)
Lemma odd_times a b : Z.odd a = true -> Z.odd b = true -> Z.odd (b * a) = true.
Proof. intros Ha Hb. rewrite Z.odd_mul, Ha, Hb. reflexivity. Qed.

Lemma odd_plus_even a b : Z.odd a = true -> Z.odd (a + 2 * b) = true.
Proof. intros Ha. rewrite Z.odd_add, Ha, Z.odd_mul. reflexivity. Qed.

Lemma odd_minus_even a b : Z.odd a = true -> Z.odd (a - 2 * b) = true.
Proof. intros Ha. rewrite Z.odd_sub, Ha, Z.odd_mul. reflexivity. Qed.

Lemma odd_multiple_nonzero x step :
  0 < step -> odd_multiple x step -> ¬ x == 0.
Proof.
  intros Hstep (a & b & Ha & Hb & Hx) Hz. rewrite Hz in Hx.
  destruct (Qmult_integral step (inject_Z a)) as [Hs|Hs]; [rewrite <- Hx; ring|lra|].
  apply (inject_Z_injective a 0) in Hs. subst a. discriminate.
Qed.

Lemma speed_decay_halves x step :
  odd_multiple x step -> halved_odd_multiple (x * 0.9) step.
Proof.
  intros (a & b & Ha & Hb & Hx).
  exists (9 * a)%Z, (5 * b)%Z. split; [by apply odd_times|split; [lia|]].
  rewrite !inject_Z_mult.
  transitivity (inject_Z 9 * (x * inject_Z b)); [|rewrite Hx]; unfold inject_Z; field.
Qed.

Lemma turning_decay_halves x step :
  odd_multiple x step -> halved_odd_multiple (x * 0.5) step.
Proof.
  intros (a & b & Ha & Hb & Hx).
  exists a, b. split; [done|split; [done|]].
  rewrite inject_Z_mult, <- Hx. unfold inject_Z; field.
Qed.

Lemma halved_is_odd_multiple x step :
  halved_odd_multiple x step -> odd_multiple x step.
Proof. intros (a & b & Ha & Hb & Hx). exists a, (2 * b)%Z. split; [done|split; [lia|done]]. Qed.

Lemma halved_plus_step x step :
  halved_odd_multiple x step -> odd_multiple (x + step) step.
Proof.
  intros (a & b & Ha & Hb & Hx).
  exists (a + 2 * b)%Z, (2 * b)%Z. split; [by apply odd_plus_even|split; [lia|]].
  rewrite inject_Z_plus, Qmult_plus_distr_l, Hx. ring.
Qed.

Lemma halved_minus_step x step :
  halved_odd_multiple x step -> odd_multiple (x - step) step.
Proof.
  intros (a & b & Ha & Hb & Hx).
  exists (a - 2 * b)%Z, (2 * b)%Z. split; [by apply odd_minus_even|split; [lia|]].
  unfold Z.sub. rewrite inject_Z_plus, inject_Z_opp.
  transitivity (x * inject_Z (2 * b) - step * inject_Z (2 * b)); [ring|]. rewrite Hx. ring.
Qed.

Lemma halved_step_up x step :
  halved_odd_multiple x step -> odd_multiple x (step * 1.5).
Proof.
  intros (a & b & Ha & Hb & Hx).
  exists a, (3 * b)%Z. split; [done|split; [lia|]].
  transitivity ((3 # 2) * (x * inject_Z (2 * b))); [|rewrite Hx; field].
  rewrite !inject_Z_mult. unfold inject_Z; field.
Qed.

Lemma halved_step_down x step :
  halved_odd_multiple x step -> odd_multiple x (step * 0.7).
Proof.
  intros (a & b & Ha & Hb & Hx).
  exists (5 * a)%Z, (7 * b)%Z. split; [by apply odd_times|split; [lia|]].
  transitivity ((7 # 2) * (x * inject_Z (2 * b))); [|rewrite Hx, inject_Z_mult; unfold inject_Z; field].
  rewrite !inject_Z_mult. unfold inject_Z; field.
Qed.

Lemma zero_plus_step x step : x == 0 -> odd_multiple (x + step) step.
Proof. intros Hx. exists 1%Z, 1%Z. split; [done|split; [done|]]. rewrite Hx. ring. Qed.

Lemma zero_minus_step x step : x == 0 -> odd_multiple (x - step) step.
Proof. intros Hx. exists (-1)%Z, 1%Z. split; [done|split; [done|]]. rewrite Hx. ring. Qed.

Lemma zero_or_decay_speed x step :
  zero_or odd_multiple x step -> zero_or halved_odd_multiple (x * 0.9) step.
Proof. intros [Hx|Hx]; [left; rewrite Hx; ring | right; by apply speed_decay_halves]. Qed.

Lemma zero_or_decay_turning x step :
  zero_or odd_multiple x step -> zero_or halved_odd_multiple (x * 0.5) step.
Proof. intros [Hx|Hx]; [left; rewrite Hx; ring | right; by apply turning_decay_halves]. Qed.

Lemma zero_or_keep x step :
  zero_or halved_odd_multiple x step -> zero_or odd_multiple x step.
Proof. intros [Hx|Hx]; [by left | right; by apply halved_is_odd_multiple]. Qed.

Lemma zero_or_plus_step x step :
  zero_or halved_odd_multiple x step -> zero_or odd_multiple (x + step) step.
Proof. intros [Hx|Hx]; right; [by apply zero_plus_step | by apply halved_plus_step]. Qed.

Lemma zero_or_minus_step x step :
  zero_or halved_odd_multiple x step -> zero_or odd_multiple (x - step) step.
Proof. intros [Hx|Hx]; right; [by apply zero_minus_step | by apply halved_minus_step]. Qed.

Lemma zero_or_step_up x step :
  zero_or halved_odd_multiple x step -> zero_or odd_multiple x (step * 1.5).
Proof. intros [Hx|Hx]; [by left | right; by apply halved_step_up]. Qed.

Lemma zero_or_step_down x step :
  zero_or halved_odd_multiple x step -> zero_or odd_multiple x (step * 0.7).
Proof. intros [Hx|Hx]; [by left | right; by apply halved_step_down]. Qed.

Lemma zero_or_zero step : zero_or odd_multiple 0 step.
Proof. by left. Qed.

Create HintDb parity.
#[local] Hint Resolve zero_or_keep zero_or_plus_step zero_or_minus_step
  zero_or_step_up zero_or_step_down zero_or_zero : parity.

(** The comparisons of the [exact] instance are the order of [Q]. *)
Lemma lt_exact (x y : Q) : lt x y = true <-> x < y.
Proof.
  simpl. rewrite negb_true_iff, <- not_true_iff_false, Qle_bool_iff.
  split; [apply Qnot_le_lt | apply Qlt_not_le].
Qed.

Lemma gt_exact (x y : Q) : gt x y = true <-> y < x.
Proof.
  simpl. rewrite negb_true_iff, <- not_true_iff_false, Qle_bool_iff.
  split; [apply Qnot_le_lt | apply Qlt_not_le].
Qed.

(** [exact_invariant] holds at construction and is kept by every call and
    by [reset], hence in every reachable state. *)
Lemma exact_invariant_init : exact_invariant __init__.
Proof. split; [reflexivity|]. split; left; reflexivity. Qed.

Lemma exact_invariant_tick key (s : KeyboardControl Q) :
  well_formed s -> exact_invariant s -> exact_invariant (tick key s).
Proof.
  intros [_ [Hsd Htd]] (Hws & Hsp & Htu).
  destruct s as [sp tu pos op ws gs sd td]; simpl in *; subst sd td.
  apply zero_or_decay_speed in Hsp. apply zero_or_decay_turning in Htu.
  unfold tick, key_effect, decay, exact_invariant; simpl.
  repeat case_decide; simpl;
    (split; [lra|]); split;
    try match goal with |- context [if ?b then _ else _] => destruct b end;
    auto with parity.
Qed.

Lemma reachable_exact_invariant (s : KeyboardControl Q) :
  reachable s -> exact_invariant s.
Proof.
  induction 1 as [|s l t w' Hs IH Hreset|s l t agent_type actions w' Hs IH Hcall].
  - apply exact_invariant_init.
  - destruct IH as (Hws & _ & _).
    revert Hreset. py_run. intros [= <-]; simpl.
    split; [exact Hws|]. split; left; reflexivity.
  - pose proof (reachable_well_formed s Hs) as Hwf.
    rewrite (get_agent_actions_self _ _ _ _ _ _ Hwf Hcall).
    by apply exact_invariant_tick.
Qed.

(** A nonzero scalar reaches exactly 0 only through a zeroing branch: the
    decayed scalar is nonzero, and so are its sum and its difference with
    the wheel step. *)
Lemma speed_zero_only_by_crossing key (s : KeyboardControl Q) :
  well_formed s -> exact_invariant s ->
  ¬ _speed s == 0 ->
  _speed (tick key s) == 0 ->
  (key = Some "w" ∧ _speed s * 0.9 < - 0.01) ∨
  (key = Some "s" ∧ 0.01 < _speed s * 0.9).
Proof.
  intros [_ [Hsd _]] (Hws & [Hsp|Hsp] & _) Hnz; [contradiction|].
  destruct s as [sp tu pos op ws gs sd td]; simpl in *; subst sd.
  apply speed_decay_halves in Hsp.
  pose proof (odd_multiple_nonzero _ _ Hws (halved_is_odd_multiple _ _ Hsp)) as H0.
  pose proof (odd_multiple_nonzero _ _ Hws (halved_plus_step _ _ Hsp)) as H1.
  pose proof (odd_multiple_nonzero _ _ Hws (halved_minus_step _ _ Hsp)) as H2.
  unfold tick, key_effect, decay; simpl.
  repeat case_decide; simpl; try tauto.
  - match goal with |- context [if ?b then _ else _] => destruct b eqn:Hguard end; [|tauto].
    intros _. left. split; [done|]. by apply (lt_exact (sp * 0.9) (- 0.01)).
  - match goal with |- context [if ?b then _ else _] => destruct b eqn:Hguard end; [|tauto].
    intros _. right. split; [done|]. by apply (gt_exact (sp * 0.9) 0.01).
Qed.

Lemma turning_zero_only_by_crossing key (s : KeyboardControl Q) :
  well_formed s -> exact_invariant s ->
  ¬ _turning s == 0 ->
  _turning (tick key s) == 0 ->
  (key = Some "a" ∧ 0.01 < _turning s * 0.5) ∨
  (key = Some "d" ∧ _turning s * 0.5 < - 0.01).
Proof.
  intros [_ [_ Htd]] (Hws & _ & [Htu|Htu]) Hnz; [contradiction|].
  destruct s as [sp tu pos op ws gs sd td]; simpl in *; subst td.
  apply turning_decay_halves in Htu.
  pose proof (odd_multiple_nonzero _ _ Hws (halved_is_odd_multiple _ _ Htu)) as H0.
  pose proof (odd_multiple_nonzero _ _ Hws (halved_plus_step _ _ Htu)) as H1.
  pose proof (odd_multiple_nonzero _ _ Hws (halved_minus_step _ _ Htu)) as H2.
  unfold tick, key_effect, decay; simpl.
  repeat case_decide; simpl; try tauto.
  - match goal with |- context [if ?b then _ else _] => destruct b eqn:Hguard end; [|tauto].
    intros _. left. split; [done|]. by apply (gt_exact (tu * 0.5) 0.01).
  - match goal with |- context [if ?b then _ else _] => destruct b eqn:Hguard end; [|tauto].
    intros _. right. split; [done|]. by apply (lt_exact (tu * 0.5) (- 0.01)).
Qed.

(** Calls without a key. *)
Lemma tick_idle (s : KeyboardControl Q) :
  well_formed s ->
  _speed (tick None s) = _speed s * 0.9 ∧ _turning (tick None s) = _turning s * 0.5.
Proof. intros [_ [Hsd Htd]]. destruct s; simpl in *; subst. done. Qed.

Lemma idle_never_crosses n (s : KeyboardControl Q) :
  reachable s ->
  (¬ _speed s == 0 ->
   ¬ _speed (foldl (fun s key => tick key s) s (replicate n None)) == 0 ∧
   (0 < _speed (foldl (fun s key => tick key s) s (replicate n None)) <->
    0 < _speed s) ∧
   Qabs (_speed (foldl (fun s key => tick key s) s (replicate n None)))
     <= Qabs (_speed s)) ∧
  (¬ _turning s == 0 ->
   ¬ _turning (foldl (fun s key => tick key s) s (replicate n None)) == 0 ∧
   (0 < _turning (foldl (fun s key => tick key s) s (replicate n None)) <->
    0 < _turning s) ∧
   Qabs (_turning (foldl (fun s key => tick key s) s (replicate n None)))
     <= Qabs (_turning s)).
Proof.
  intros Hs. induction n as [|n IH].
  - split; intros Hnz; (split; [done|split; [done|apply Qle_refl]]).
  - rewrite replicate_S_end, foldl_snoc.
    set (s_n := foldl (fun s key => tick key s) s (replicate n None)) in *.
    assert (Hwf : well_formed s_n) by apply reachable_well_formed, reachable_ticks, Hs.
    destruct (tick_idle s_n Hwf) as [-> ->].
    destruct IH as [IHs IHt]. split; intros Hnz.
    + destruct (IHs Hnz) as (Hn & Hsign & Hle).
      destruct (decay_shrinks (_speed s_n) 0.9) as (Hlt & Hsg & Hn'); [done..|].
      split; [done|]. split; [by rewrite Hsg|]. apply Qlt_le_weak.
      eapply Qlt_le_trans; [exact Hlt|exact Hle].
    + destruct (IHt Hnz) as (Hn & Hsign & Hle).
      destruct (decay_shrinks (_turning s_n) 0.5) as (Hlt & Hsg & Hn'); [done..|].
      split; [done|]. split; [by rewrite Hsg|]. apply Qlt_le_weak.
      eapply Qlt_le_trans; [exact Hlt|exact Hle].
Qed.

(** C5: over exact arithmetic, from every reachable state, any number [n]
    of calls without a key followed by one more all return; the last one
    multiplies speed by 0.9 and turning by 0.5.  A speed that was not 0 at
    the start is then strictly smaller in magnitude than before that call,
    no larger than at the start, of the sign it had at the start, and not
    0; likewise for turning.  And a call, whatever key it samples, takes a
    nonzero speed to exactly 0 only through the zeroing branch of "w" or
    "s" (decayed speed below -0.01, resp. above 0.01), a nonzero turning
    only through that of "a" or "d". *)
Theorem idle_decay_is_strict_and_never_zero (s : KeyboardControl Q) agent_type l n :
  reachable s ->
  ∃ history w actions w',
    run (replicate n None) agent_type s l = Return (history, w) ∧
    call None agent_type (self w) (info_log w) = Return (actions, w') ∧
    _speed (self w') == _speed (self w) * 0.9 ∧
    _turning (self w') == _turning (self w) * 0.5 ∧
    (¬ _speed s == 0 ->
     Qabs (_speed (self w')) < Qabs (_speed (self w)) ∧
     Qabs (_speed (self w)) <= Qabs (_speed s) ∧
     (0 < _speed (self w') <-> 0 < _speed s) ∧
     ¬ _speed (self w') == 0) ∧
    (¬ _turning s == 0 ->
     Qabs (_turning (self w')) < Qabs (_turning (self w)) ∧
     Qabs (_turning (self w)) <= Qabs (_turning s) ∧
     (0 < _turning (self w') <-> 0 < _turning s) ∧
     ¬ _turning (self w') == 0) ∧
    (∀ key actions'' w'',
       call key agent_type s l = Return (actions'', w'') ->
       (¬ _speed s == 0 -> _speed (self w'') == 0 ->
        (key = Some "w" ∧ _speed s * 0.9 < - 0.01) ∨
        (key = Some "s" ∧ 0.01 < _speed s * 0.9)) ∧
       (¬ _turning s == 0 -> _turning (self w'') == 0 ->
        (key = Some "a" ∧ 0.01 < _turning s * 0.5) ∨
        (key = Some "d" ∧ _turning s * 0.5 < - 0.01))).
Proof.
  intros Hs.
  pose proof (reachable_well_formed s Hs) as Hwf.
  destruct (run_returns (replicate n None) agent_type s l Hwf) as (h & l1 & Hrun).
  set (s_n := foldl (fun s key => tick key s) s (replicate n None)) in *.
  assert (Hwfn : well_formed s_n) by apply reachable_well_formed, reachable_ticks, Hs.
  destruct (call_returns None agent_type s_n l1 Hwfn) as (a & l2 & Hcall).
  destruct (tick_idle s_n Hwfn) as [Hsp Htu].
  destruct (idle_never_crosses n s Hs) as [Hspeed Hturning]. fold s_n in Hspeed, Hturning.
  eexists h, _, a, _. split; [exact Hrun|]. split; [exact Hcall|]. cbn [self].
  rewrite Hsp, Htu. split; [reflexivity|]. split; [reflexivity|].
  split; [|split].
  - intros Hnz. destruct (Hspeed Hnz) as (Hn & Hsign & Hle).
    destruct (decay_shrinks (_speed s_n) 0.9) as (Hlt & Hsg & Hn'); [done..|].
    split; [done|]. split; [done|]. split; [by rewrite Hsg|done].
  - intros Hnz. destruct (Hturning Hnz) as (Hn & Hsign & Hle).
    destruct (decay_shrinks (_turning s_n) 0.5) as (Hlt & Hsg & Hn'); [done..|].
    split; [done|]. split; [done|]. split; [by rewrite Hsg|done].
  - intros key a' w'' Hcall'.
    rewrite (call_self _ _ _ _ _ _ Hwf Hcall').
    pose proof (reachable_exact_invariant s Hs) as Hinv.
    split; intros Hnz Hz.
    + by apply speed_zero_only_by_crossing.
    + by apply turning_zero_only_by_crossing.
Qed.

(** The two concrete scenarios of the binary64 part read the same over
    exact arithmetic. *)
Remark w_then_idle_from_fresh_exact :
  ∃ a1 w1 a2 w2,
    call (Some "w") "turtlebot" (__init__ : KeyboardControl Q) [] =
      Return (a1, w1) ∧
    Forall2 Qeq a1 [0.5; 0.5] ∧ _speed (self w1) == 0.5 ∧
    call None "turtlebot" (self w1) (info_log w1) = Return (a2, w2) ∧
    Forall2 Qeq a2 [0.45; 0.45] ∧ _speed (self w2) == 0.45.
Proof.
  eexists _, _, _, _. split; [vm_compute; reflexivity|].
  split; [repeat constructor|]. split; [reflexivity|].
  split; [vm_compute; reflexivity|].
  split; [repeat constructor|]. reflexivity.
Qed.

Remark w_at_minus_0_005_adds_the_step_exact :
  ∃ actions w',
    call (Some "w") "turtlebot"
      (set_speed (- 0.005) (__init__ : KeyboardControl Q)) [] =
      Return (actions, w') ∧
    _speed (self w') == 0.4955 ∧ ¬ _speed (self w') == 0.
Proof.
  eexists _, _. split; [vm_compute; reflexivity|].
  split; [reflexivity|]. intros Hz. discriminate Hz.
Qed.

End Exact.

(** * Binary64: the arithmetic CPython runs *)

Section Binary64.
Local Open Scope py_scope.

(** [lit] yields the doubles CPython parses the source's literals to. *)
Example literals_binary64 :
  (lit 0 : float) = 0x0p+0%float ∧
  (lit 0.5 : float) = 0x1p-1%float ∧
  (lit 0.02 : float) = 0x1.47ae147ae147bp-6%float ∧
  (lit 0.9 : float) = 0x1.ccccccccccccdp-1%float ∧
  (lit 0.01 : float) = 0x1.47ae147ae147bp-7%float ∧
  (lit 1.5 : float) = 0x1.8p+0%float ∧
  (lit 0.7 : float) = 0x1.6666666666666p-1%float ∧
  (lit 0.3 : float) = 0x1.3333333333333p-2%float ∧
  (lit 0.1 : float) = 0x1.999999999999ap-4%float ∧
  (lit 0.2 : float) = 0x1.999999999999ap-3%float.
Proof. repeat split; reflexivity. Qed.

(** The guard of "w" at a decayed speed of -0.005 * 0.9: not below -0.01. *)
Lemma small_negative_speed_is_above_threshold :
  (- (lit 0.005 : float) * lit 0.9 <? - lit 0.01) = false.
Proof. reflexivity. Qed.

(** C1, as stated, fails: from the constructed state with speed set to
    -0.005, a call that samples "w" returns with speed
    [-0.005 * 0.9 + 0.5], the double 0.4955, which is not 0. *)
Lemma w_at_minus_0_005_adds_the_step :
  ∃ actions w',
    call (Some "w") "turtlebot"
      (set_speed (- lit 0.005) (__init__ : KeyboardControl float)) [] =
      Return (actions, w') ∧
    _speed (self w') = - lit 0.005 * lit 0.9 + lit 0.5 ∧
    _speed (self w') = lit 0.4955 ∧
    PrimFloat.eqb (_speed (self w')) (lit 0) = false.
Proof. eexists _, _. split; [vm_compute; reflexivity|]. repeat split. Qed.

(** C1, amended: from a state with three gripper slots and the decay
    factors of the constructor, a call that samples "w" returns, and leaves
    speed 0 when the decayed speed is below -0.01, the decayed speed plus
    the wheel step otherwise.  At speed -0.005 it is the latter:
    [-0.005 * 0.9 + wheel_step], which is 0.4955 for the wheel step 0.5. *)
Theorem w_zeroes_only_below_threshold (s : KeyboardControl float) agent_type l :
  well_formed s ->
  ∃ actions w',
    call (Some "w") agent_type s l = Return (actions, w') ∧
    _speed (self w') =
      (if _speed s * lit 0.9 <? - lit 0.01 then lit 0
       else _speed s * lit 0.9 + _wheel_step s) ∧
    (_speed s = - lit 0.005 ->
     _speed (self w') = - lit 0.005 * lit 0.9 + _wheel_step s ∧
     (_wheel_step s = lit 0.5 -> _speed (self w') = lit 0.4955)).
Proof.
  intros Hwf.
  destruct (call_returns (Some "w") agent_type s l Hwf) as (a & l' & Hcall).
  eexists _, _. split; [exact Hcall|]. cbn [self].
  destruct Hwf as [_ [Hsd _]].
  assert (Hsp : _speed (tick (Some "w") s) =
                (if _speed s * lit 0.9 <? - lit 0.01 then lit 0
                 else _speed s * lit 0.9 + _wheel_step s)).
  { destruct s; simpl in *; subst. reflexivity. }
  split; [exact Hsp|].
  intros Hspeed. rewrite Hsp, Hspeed, small_negative_speed_is_above_threshold.
  split; [reflexivity|]. intros ->. reflexivity.
Qed.

(** C2: a fresh instance has wheel step 0.5, speed 0 and turning 0.  For
    either diff-drive agent type, a call that samples "w" returns
    [[0.5, 0.5]] and leaves speed 0.5; the call after it, with no key,
    returns [[0.45, 0.45]] and leaves speed 0.45.  The two calls in a row
    on a terminal holding just the "w" give the same two lists. *)
Theorem w_then_idle_from_fresh agent_type :
  agent_type = "pioneer2dx_noplugin" ∨ agent_type = "turtlebot" ->
  _wheel_step (__init__ : KeyboardControl float) = lit 0.5 ∧
  _speed (__init__ : KeyboardControl float) = lit 0 ∧
  _turning (__init__ : KeyboardControl float) = lit 0 ∧
  ∃ w1 w2,
    call (Some "w") agent_type (__init__ : KeyboardControl float) [] =
      Return ([lit 0.5; lit 0.5], w1) ∧
    _speed (self w1) = lit 0.5 ∧
    call None agent_type (self w1) (info_log w1) =
      Return ([lit 0.45; lit 0.45], w2) ∧
    _speed (self w2) = lit 0.45 ∧
    calls 2 agent_type
      {| self := __init__; info_log := []; terminal := [Some "w"] |} =
      Return ([[lit 0.5; lit 0.5]; [lit 0.45; lit 0.45]], w2).
Proof.
  intros Hat. do 3 (split; [reflexivity|]).
  destruct Hat as [-> | ->]; eexists _, _;
    (split; [vm_compute; reflexivity|]);
    (split; [reflexivity|]);
    (split; [vm_compute; reflexivity|]);
    (split; [reflexivity|]); vm_compute; reflexivity.
Qed.

(** Why C5 is stated over exact arithmetic: in binary64 the decay does
    reach 0.  After a "d" from a fresh instance, turning is 0.5; 1074
    halvings later the smallest subnormal rounds to 0. *)
Remark binary64_turning_underflows :
  ∃ history w,
    run (Some "d" :: replicate 1074 None) "turtlebot"
      (__init__ : KeyboardControl float) [] = Return (history, w) ∧
    _turning (self w) = lit 0.
Proof. eexists _, _. split; [vm_compute; reflexivity|reflexivity]. Qed.

End Binary64.

(** * The theorems at concrete inputs

    Each theorem above that carries a hypothesis is applied here to an
    explicit state, with its hypotheses discharged. *)

Section Instances.
Local Open Scope py_scope.

(** A youbot call with "w" on a fresh instance returns 13 elements. *)
Lemma action_length_by_agent_type_instance :
  reachable (__init__ : KeyboardControl float) ∧
  supported "youbot_noplugin" ∧
  ∃ actions w',
    call (Some "w") "youbot_noplugin" (__init__ : KeyboardControl float) [] =
      Return (actions, w') ∧
    length actions = 13%nat.
Proof.
  assert (Hs : reachable (__init__ : KeyboardControl float)) by apply reachable_init.
  assert (Hat : supported "youbot_noplugin") by (right; right; left; reflexivity).
  split; [exact Hs|]. split; [exact Hat|].
  destruct (action_length_by_agent_type __init__ (Some "w") "youbot_noplugin" [] Hs Hat)
    as (a & w' & Hcall & _ & Hlen & _).
  exists a, w'. split; [exact Hcall | apply Hlen; reflexivity].
Defined.

(** The agent type "icub_with_hands" is not supported: the call returns
    the empty list and logs one line. *)
Lemma unsupported_agent_type_is_not_fatal_instance :
  reachable (__init__ : KeyboardControl float) ∧
  ¬ supported "icub_with_hands" ∧
  ∃ s',
    call (Some "i") "icub_with_hands" (__init__ : KeyboardControl float) [] =
    Return ([], {| self := s';
                   info_log := ["agent type not supported yet: icub_with_hands"];
                   terminal := [] |}).
Proof.
  assert (Hs : reachable (__init__ : KeyboardControl float)) by apply reachable_init.
  assert (Hat : ¬ supported "icub_with_hands").
  { intros [Hat|[Hat|[Hat|Hat]]]; discriminate Hat. }
  split; [exact Hs|]. split; [exact Hat|].
  exact (unsupported_agent_type_is_not_fatal __init__ (Some "i") "icub_with_hands" [] Hs Hat).
Defined.

(** Closing the gripper with "e" on a fresh instance: joints 7 and 8 are
    both -0.5. *)
Lemma youbot_gripper_joints_instance :
  reachable (__init__ : KeyboardControl float) ∧
  ∃ actions w',
    call (Some "e") "youbot_noplugin" (__init__ : KeyboardControl float) [] =
      Return (actions, w') ∧
    _gripper_open (self w') = false ∧
    actions !! 7%nat =
      Some (if _gripper_open (self w') then lit 0.5 else - lit 0.5) ∧
    actions !! 8%nat = actions !! 7%nat.
Proof.
  assert (Hs : reachable (__init__ : KeyboardControl float)) by apply reachable_init.
  split; [exact Hs|].
  exact (youbot_gripper_joints __init__ (Some "e") [] Hs).
Defined.

(** "+" on a fresh instance, two calls that leave the steps alone, then
    "w": the wheel step is 0.5 * 1.5 throughout. *)
Lemma plus_scales_the_steps_instance :
  reachable (__init__ : KeyboardControl float) ∧
  Forall (fun k => k ≠ Some "+" ∧ k ≠ Some "-") [None; Some "e"] ∧
  ∃ a1 w1 history w2,
    call (Some "+") "turtlebot" (__init__ : KeyboardControl float) [] =
      Return (a1, w1) ∧
    _wheel_step (self w1) = lit 0.5 * lit 1.5 ∧
    run [None; Some "e"] "turtlebot" (self w1) (info_log w1) =
      Return (history, w2) ∧
    _wheel_step (self w2) = lit 0.5 * lit 1.5.
Proof.
  assert (Hs : reachable (__init__ : KeyboardControl float)) by apply reachable_init.
  assert (Hkeys : Forall (fun k => k ≠ Some "+" ∧ k ≠ Some "-") [None; Some "e"]).
  { repeat (constructor; [split; discriminate|]). constructor. }
  split; [exact Hs|]. split; [exact Hkeys|].
  destruct (plus_scales_the_steps __init__ "turtlebot" [] [None; Some "e"] (Some "w")
              Hs Hkeys)
    as (a1 & w1 & h & w2 & _ & _ & _ & _ & H1 & Hws1 & _ & H2 & Hws2 & _).
  exists a1, w1, h, w2. split; [exact H1|]. split; [exact Hws1|].
  split; [exact H2|exact Hws2].
Defined.

(** After a "w" the speed is 0.5; a call for an unsupported agent type
    with no key returns the empty list and still leaves the speed decayed. *)
Lemma state_is_updated_for_every_agent_type_instance :
  reachable (tick (Some "w") (__init__ : KeyboardControl float)) ∧
  ∃ actions w',
    call None "icub_with_hands" (tick (Some "w") (__init__ : KeyboardControl float)) [] =
      Return (actions, w') ∧
    actions = [] ∧
    _speed (self w') = lit 0.5 * lit 0.9.
Proof.
  assert (Hs : reachable (tick (Some "w") (__init__ : KeyboardControl float))).
  { apply reachable_tick, reachable_init. }
  split; [exact Hs|].
  destruct (state_is_updated_for_every_agent_type _ None "icub_with_hands" [] Hs)
    as (a & w' & Hcall & Hempty & _ & Hspeed & _).
  exists a, w'. split; [exact Hcall|]. split.
  - apply Hempty. intros [Hat|[Hat|[Hat|Hat]]]; discriminate Hat.
  - rewrite Hspeed by discriminate. reflexivity.
Defined.

(** The third gripper slot of a fresh instance. *)
Lemma gripper_third_slot_stays_zero_instance :
  reachable (__init__ : KeyboardControl float) ∧
  _gripper_pos (__init__ : KeyboardControl float) !! 2%nat = Some (lit 0).
Proof.
  assert (Hs : reachable (__init__ : KeyboardControl float)) by apply reachable_init.
  split; [exact Hs|].
  exact (proj1 (gripper_third_slot_stays_zero __init__ Hs)).
Defined.

(** The state of C1: constructed, then speed -0.005. *)
Lemma w_zeroes_only_below_threshold_instance :
  well_formed (set_speed (- lit 0.005) (__init__ : KeyboardControl float)) ∧
  ∃ actions w',
    call (Some "w") "turtlebot"
      (set_speed (- lit 0.005) (__init__ : KeyboardControl float)) [] =
      Return (actions, w') ∧
    _speed (self w') = lit 0.4955.
Proof.
  assert (Hwf : well_formed (set_speed (- lit 0.005) (__init__ : KeyboardControl float))).
  { split; [exists (lit 0), (lit 0); reflexivity|split; reflexivity]. }
  split; [exact Hwf|].
  destruct (w_zeroes_only_below_threshold _ "turtlebot" [] Hwf)
    as (a & w' & Hcall & _ & Hspeed).
  exists a, w'. split; [exact Hcall|].
  destruct (Hspeed eq_refl) as [_ Hdefault]. apply Hdefault. reflexivity.
Defined.

(** The scenario of C2 on a turtlebot. *)
Lemma w_then_idle_from_fresh_instance :
  ("turtlebot" = "pioneer2dx_noplugin" ∨ "turtlebot" = "turtlebot") ∧
  ∃ w1 w2,
    call (Some "w") "turtlebot" (__init__ : KeyboardControl float) [] =
      Return ([lit 0.5; lit 0.5], w1) ∧
    _speed (self w1) = lit 0.5 ∧
    call None "turtlebot" (self w1) (info_log w1) =
      Return ([lit 0.45; lit 0.45], w2) ∧
    _speed (self w2) = lit 0.45 ∧
    calls 2 "turtlebot"
      {| self := (__init__ : KeyboardControl float); info_log := [];
         terminal := [Some "w"] |} =
      Return ([[lit 0.5; lit 0.5]; [lit 0.45; lit 0.45]], w2).
Proof.
  assert (Hat : "turtlebot" = "pioneer2dx_noplugin" ∨ "turtlebot" = "turtlebot")
    by (right; reflexivity).
  split; [exact Hat|].
  exact (proj2 (proj2 (proj2 (w_then_idle_from_fresh "turtlebot" Hat)))).
Defined.

(** Exact arithmetic, speed 0.5 after a "w": three idle calls and a
    fourth, which shrinks the speed again without reaching 0. *)
Lemma idle_decay_is_strict_and_never_zero_instance :
  reachable (tick (Some "w") (__init__ : KeyboardControl Q)) ∧
  ∃ history w actions w',
    run (replicate 3 None) "turtlebot"
      (tick (Some "w") (__init__ : KeyboardControl Q)) [] = Return (history, w) ∧
    call None "turtlebot" (self w) (info_log w) = Return (actions, w') ∧
    (Qabs (_speed (self w')) < Qabs (_speed (self w)))%Q ∧
    ¬ (_speed (self w') == 0)%Q.
Proof.
  assert (Hs : reachable (tick (Some "w") (__init__ : KeyboardControl Q))).
  { apply reachable_tick, reachable_init. }
  split; [exact Hs|].
  destruct (idle_decay_is_strict_and_never_zero _ "turtlebot" [] 3 Hs)
    as (h & w & a & w' & Hrun & Hcall & _ & _ & Hspeed & _).
  exists h, w, a, w'. split; [exact Hrun|]. split; [exact Hcall|].
  destruct Hspeed as (Hlt & _ & _ & Hnz).
  - intros Hz. vm_compute in Hz. discriminate Hz.
  - split; [exact Hlt|exact Hnz].
Defined.

End Instances.

(** * Further properties, for every arithmetic *)

Section Further.
Context {num : Type} `{PyNumber num}.
Local Open Scope py_scope.

(** What the projection leaves in the log. *)
Lemma convert_log agent_type (s : KeyboardControl num) l t :
  length (_gripper_pos s) = 3%nat ->
  ∃ actions,
    _convert_to_agent_action agent_type
      {| self := s; info_log := l; terminal := t |} =
    Return (actions,
            {| self := s;
               info_log :=
                 if decide (supported agent_type) then l
                 else l ++ ["agent type not supported yet: " +:+ agent_type];
               terminal := t |}) ∧
    (¬ supported agent_type -> actions = []).
Proof.
  intros Hlen.
  destruct (_gripper_pos s) as [|p0 [|p1 ?]] eqn:Hpos; try discriminate.
  unfold supported. py_run.
  repeat case_decide; simpl; rewrite ?Hpos; simpl; eexists; split;
    first [reflexivity | tauto].
Qed.

(** [n] calls, all at once: the state, the log and the terminal they leave. *)
Lemma calls_run n agent_type (s : KeyboardControl num) l t :
  well_formed s ->
  ∃ history,
    calls n agent_type {| self := s; info_log := l; terminal := t |} =
    Return (history,
            {| self := foldl (fun s key => tick key s) s (polled n t);
               info_log :=
                 if decide (supported agent_type) then l
                 else l ++ replicate n ("agent type not supported yet: " +:+ agent_type);
               terminal := drop n t |}) ∧
    length history = n ∧
    (¬ supported agent_type -> Forall (fun actions => actions = []) history).
Proof.
  revert s l t. induction n as [|n IH]; intros s l t Hwf.
  - exists []. split; [|split; [done|constructor]]. simpl. rewrite drop_0.
    case_decide; [done|]. by rewrite app_nil_r.
  - pose proof (well_formed_tick (pending t) s Hwf) as Hwf'.
    destruct (convert_log agent_type _ l (tail t) (well_formed_length _ Hwf'))
      as (a & Hconv & Hempty).
    rewrite <- get_agent_actions_run in Hconv by apply well_formed_length, Hwf.
    destruct (IH (tick (pending t) s)
                (if decide (supported agent_type) then l
                 else l ++ ["agent type not supported yet: " +:+ agent_type])
                (tail t) Hwf') as (h & Hrest & Hlen & Hall).
    exists (a :: h). split; [|split; [simpl; by rewrite Hlen|]].
    + simpl. unfold mbind at 1, Py_bind. rewrite Hconv.
      unfold mbind at 1, Py_bind. rewrite Hrest. unfold mret, Py_ret.
      f_equal. f_equal.
      replace (drop (S n) t) with (drop n (tail t))
        by (destruct t; simpl; rewrite ?drop_nil; reflexivity).
      f_equal. destruct (decide (supported agent_type)); [done|].
      by rewrite <- app_assoc.
    + intros Hat. constructor; auto.
Qed.

Lemma decay_tick_unhandled key (s : KeyboardControl num) :
  Forall (fun c => key ≠ Some c) key_table -> tick key s = decay s.
Proof.
  unfold key_table. intros Hk.
  repeat match goal with
         | Hk : Forall _ (_ :: _) |- _ => apply Forall_cons in Hk as [? Hk]
         end.
  unfold tick, key_effect. repeat case_decide; done.
Qed.

(** X1: a key without a branch (an upper-case letter, the empty string of
    an end of input, no key at all) only lets the decay through: the call
    returns and leaves speed and turning multiplied by their decay factors
    and every other attribute as it was. *)
Theorem unhandled_key_only_decays (s : KeyboardControl num) key agent_type l :
  reachable s ->
  Forall (fun c => key ≠ Some c) key_table ->
  ∃ actions w',
    call key agent_type s l = Return (actions, w') ∧
    _speed (self w') = _speed s * _speed_decay s ∧
    _turning (self w') = _turning s * _turning_decay s ∧
    _gripper_pos (self w') = _gripper_pos s ∧
    _gripper_open (self w') = _gripper_open s ∧
    _wheel_step (self w') = _wheel_step s ∧
    _gripper_step (self w') = _gripper_step s ∧
    _speed_decay (self w') = _speed_decay s ∧
    _turning_decay (self w') = _turning_decay s.
Proof.
  intros Hs Hk. apply reachable_well_formed in Hs.
  destruct (call_returns key agent_type s l Hs) as (a & l' & Hcall).
  eexists _, _. split; [exact Hcall|]. cbn [self].
  rewrite decay_tick_unhandled by done. destruct s; done.
Qed.

Lemma tick_gripper_open key (s : KeyboardControl num) :
  _gripper_open (tick key s) =
  if decide (key = Some "e") then negb (_gripper_open s) else _gripper_open s.
Proof. destruct s. tick_cases. Qed.

Lemma ticks_gripper_open keys (s : KeyboardControl num) :
  _gripper_open (foldl (fun s key => tick key s) s keys) =
  if Nat.even (presses "e" keys) then _gripper_open s
  else negb (_gripper_open s).
Proof.
  revert s. induction keys as [|key keys IH]; intros s; [done|].
  simpl. rewrite IH, tick_gripper_open. unfold presses.
  rewrite filter_cons. case_decide; [|done].
  cbn [length]. rewrite Nat.even_succ, <- Nat.negb_even.
  destruct (Nat.even _), (_gripper_open s); done.
Qed.

(** X2: across any sequence of calls the gripper flag depends only on how
    many of them sampled "e": an even number leaves it as it was, an odd
    number flips it. *)
Theorem gripper_flag_follows_parity_of_e (s : KeyboardControl num) keys agent_type l :
  reachable s ->
  ∃ history w',
    run keys agent_type s l = Return (history, w') ∧
    _gripper_open (self w') =
      if Nat.even (presses "e" keys) then _gripper_open s
      else negb (_gripper_open s).
Proof.
  intros Hs. apply reachable_well_formed in Hs.
  destruct (run_returns keys agent_type s l Hs) as (h & l' & Hrun).
  eexists _, _. split; [exact Hrun|]. apply ticks_gripper_open.
Qed.

(** X3: a key writes only the attribute it stands for.  The gripper
    offset changes only on "i", "k", "j", "l" (and keeps its three slots),
    the gripper flag only on "e", the two step sizes only on "+" and "-",
    and no key changes a decay factor. *)
Theorem each_key_writes_its_own_attribute (s : KeyboardControl num) key agent_type l :
  reachable s ->
  ∃ actions w',
    call key agent_type s l = Return (actions, w') ∧
    (key ≠ Some "i" -> key ≠ Some "k" -> key ≠ Some "j" -> key ≠ Some "l" ->
     _gripper_pos (self w') = _gripper_pos s) ∧
    length (_gripper_pos (self w')) = 3%nat ∧
    (key ≠ Some "e" -> _gripper_open (self w') = _gripper_open s) ∧
    (key ≠ Some "+" -> key ≠ Some "-" ->
     _wheel_step (self w') = _wheel_step s ∧
     _gripper_step (self w') = _gripper_step s) ∧
    _speed_decay (self w') = _speed_decay s ∧
    _turning_decay (self w') = _turning_decay s.
Proof.
  intros Hs. apply reachable_well_formed in Hs.
  destruct (call_returns key agent_type s l Hs) as (a & l' & Hcall).
  eexists _, _. split; [exact Hcall|]. cbn [self].
  split; [|split; [|split; [|split; [|split]]]].
  - intros. destruct s. tick_cases.
  - apply well_formed_length, well_formed_tick, Hs.
  - intros. destruct s. tick_cases.
  - intros. destruct s. tick_cases.
  - destruct s. tick_cases.
  - destruct s. tick_cases.
Qed.

(** X4: in every reachable state the decay factors are those of the
    constructor, and [reset()] leaves a fresh instance that differs from
    [__init__] at most in the two step sizes, which it keeps. *)
Theorem reset_is_fresh_up_to_steps (s : KeyboardControl num) l t :
  reachable s ->
  _speed_decay s = lit 0.9 ∧
  _turning_decay s = lit 0.5 ∧
  reset {| self := s; info_log := l; terminal := t |} =
    Return ((), {| self := set_gripper_step (_gripper_step s)
                             (set_wheel_step (_wheel_step s) __init__);
                   info_log := l; terminal := t |}).
Proof.
  intros Hs. destruct (reachable_well_formed s Hs) as [_ [Hsd Htd]].
  split; [exact Hsd|]. split; [exact Htd|].
  py_run.
  unfold set_gripper_step, set_wheel_step, set_turning, set_speed,
    set_gripper_open, set_gripper_pos, __init__; simpl.
  by rewrite Hsd, Htd.
Qed.

(** X5: an episode that never samples "+" or "-", started on a fresh
    instance and closed by [reset()], ends on the fresh instance again. *)
Theorem episode_without_step_keys_resets_to_fresh keys agent_type l :
  Forall (fun k => k ≠ Some "+" ∧ k ≠ Some "-") keys ->
  ∃ history w1 w2,
    run keys agent_type (__init__ : KeyboardControl num) l = Return (history, w1) ∧
    reset w1 = Return ((), w2) ∧
    self w2 = __init__.
Proof.
  intros Hkeys.
  destruct (run_returns keys agent_type __init__ l well_formed_init)
    as (h & l' & Hrun).
  destruct (ticks_steps_frame keys (__init__ : KeyboardControl num) Hkeys)
    as [Hws Hgs].
  pose proof (reachable_well_formed _
                (reachable_ticks keys _ reachable_init)) as [_ [Hsd Htd]].
  eexists _, _, _. split; [exact Hrun|]. split; [reflexivity|].
  cbn [self]. unfold set_turning, set_speed, set_gripper_open, set_gripper_pos.
  cbn. rewrite Hws, Hgs, Hsd, Htd. reflexivity.
Qed.


(** X6: the wheel commands of the three robots are one and the same pair.
    From the same state and key, the diff-drive call returns [[L, R]]
    with [L = speed + turning] and [R = speed - turning] of the state the
    call leaves; the pr2 call returns [[L, L, R, R, L, L, R, R]], and the
    last four elements of the youbot call are [[L, R, L, R]]. *)
Theorem wheel_commands_agree_across_robots (s : KeyboardControl num) key l :
  reachable s ->
  ∃ L R w1 w2 w3 y w4,
    call key "pioneer2dx_noplugin" s l = Return ([L; R], w1) ∧
    call key "turtlebot" s l = Return ([L; R], w2) ∧
    call key "pr2_noplugin" s l = Return ([L; L; R; R; L; L; R; R], w3) ∧
    call key "youbot_noplugin" s l = Return (y, w4) ∧
    drop 9 y = [L; R; L; R] ∧
    L = _speed (self w1) + _turning (self w1) ∧
    R = _speed (self w1) - _turning (self w1) ∧
    self w2 = self w1 ∧ self w3 = self w1 ∧ self w4 = self w1.
Proof.
  intros Hs. apply reachable_well_formed in Hs.
  pose proof (well_formed_length s Hs) as Hlen.
  destruct (well_formed_tick key s Hs) as [(p0 & p1 & Hpos) _].
  rewrite !call_run by done.
  rewrite !convert_diff_drive by auto. rewrite convert_pr2.
  rewrite (convert_youbot _ p0 p1) by (simpl; rewrite Hpos; done).
  eexists _, _, _, _, _, _, _. repeat split; reflexivity.
Qed.

(** X7: on the youbot each gripper key moves its own joint and nothing
    else.  Compared with the call that samples no key from the same
    state, "i" and "k" change at most element 3 of the action, "j" and
    "l" at most element 1, "e" at most elements 7 and 8, "+" and "-"
    nothing, and "w", "s", "a", "d" at most the four wheel elements. *)
Theorem youbot_keys_move_their_own_joints (s : KeyboardControl num) key l :
  reachable s ->
  ∃ y0 w0 y w',
    call None "youbot_noplugin" s l = Return (y0, w0) ∧
    call key "youbot_noplugin" s l = Return (y, w') ∧
    length y0 = 13%nat ∧ length y = 13%nat ∧
    (key = Some "i" ∨ key = Some "k" ->
     take 3 y = take 3 y0 ∧ drop 4 y = drop 4 y0) ∧
    (key = Some "j" ∨ key = Some "l" ->
     take 1 y = take 1 y0 ∧ drop 2 y = drop 2 y0) ∧
    (key = Some "e" -> take 7 y = take 7 y0 ∧ drop 9 y = drop 9 y0) ∧
    (key = Some "+" ∨ key = Some "-" -> y = y0) ∧
    (key = Some "w" ∨ key = Some "s" ∨ key = Some "a" ∨ key = Some "d" ->
     take 9 y = take 9 y0).
Proof.
  intros Hs. apply reachable_well_formed in Hs.
  pose proof (well_formed_length s Hs) as Hlen.
  destruct (well_formed_tick key s Hs) as [(p0 & p1 & Hpos) _].
  destruct (well_formed_tick None s Hs) as [(q0 & q1 & Hpos0) _].
  rewrite !call_run by done.
  rewrite (convert_youbot {| self := tick key s; info_log := l; terminal := [] |}
             p0 p1) by (cbn [self]; rewrite Hpos; done).
  rewrite (convert_youbot {| self := tick None s; info_log := l; terminal := [] |}
             q0 q1) by (cbn [self]; rewrite Hpos0; done).
  eexists _, _, _, _. split; [reflexivity|]. split; [reflexivity|].
  split; [reflexivity|]. split; [reflexivity|]. cbn [self].
  destruct Hs as [(r0 & r1 & Hr) _].
  destruct s as [sp tu pos op ws gs sd td]; simpl in *; subst pos.
  revert Hpos Hpos0. unfold tick, key_effect, decay; simpl.
  repeat split; intros; destruct_or?; simplify_eq; simpl in *; simplify_eq;
    reflexivity.
Qed.

(** X8: the diff-drive and pr2 actions do not see the gripper or the step
    sizes: for every agent type other than the youbot, a call that samples
    "i", "k", "j", "l", "e", "+" or "-" returns what the call without a key
    returns from the same state. *)
Theorem gripper_and_step_keys_leave_wheel_actions (s : KeyboardControl num) key agent_type l :
  reachable s ->
  agent_type ≠ "youbot_noplugin" ->
  key ≠ Some "w" -> key ≠ Some "s" -> key ≠ Some "a" -> key ≠ Some "d" ->
  ∃ actions w0 w',
    call None agent_type s l = Return (actions, w0) ∧
    call key agent_type s l = Return (actions, w') ∧
    info_log w' = info_log w0.
Proof.
  intros Hs Hat Hw Hs' Ha Hd. apply reachable_well_formed in Hs.
  pose proof (well_formed_length s Hs) as Hlen.
  rewrite !call_run by done.
  destruct Hs as [(r0 & r1 & Hr) _].
  destruct s as [sp tu pos op ws gs sd td]; simpl in *; subst pos.
  py_run. unfold tick, key_effect, decay; simpl.
  repeat case_decide; simplify_eq; simpl; eexists _, _, _; done.
Qed.


(** X10: only an unsupported agent type writes to the log.  [n] calls for
    a supported agent type leave the log as it was; for an unsupported one
    they append the same diagnostic [n] times, once per call. *)
Theorem log_grows_only_for_unsupported (s : KeyboardControl num) n agent_type l t :
  reachable s ->
  ∃ history w',
    calls n agent_type {| self := s; info_log := l; terminal := t |} =
      Return (history, w') ∧
    (supported agent_type -> info_log w' = l) ∧
    (¬ supported agent_type ->
     info_log w' =
       l ++ replicate n ("agent type not supported yet: " +:+ agent_type) ∧
     Forall (fun actions => actions = []) history).
Proof.
  intros Hs. apply reachable_well_formed in Hs.
  destruct (calls_run n agent_type s l t Hs) as (h & Hrun & _ & Hall).
  eexists _, _. split; [exact Hrun|]. cbn.
  split; [intros Hat; by rewrite decide_True|].
  intros Hat. split; [by rewrite decide_False|auto].
Qed.

End Further.

(** * Further properties over exact arithmetic *)

Section FurtherExact.
Local Open Scope Q_scope.



















Lemma mirrored_guards (x : Q) :
  gt x 0.01 = lt (- x) (- (0.01)) ∧ lt x (- (0.01)) = gt (- x) 0.01.
Proof.
  split.
  - destruct (gt x 0.01) eqn:H1, (lt (- x) (- (0.01))) eqn:H2; try done.
    + apply gt_exact in H1. apply not_true_iff_false in H2.
      exfalso. apply H2, lt_exact. lra.
    + apply lt_exact in H2. apply not_true_iff_false in H1.
      exfalso. apply H1, gt_exact. lra.
  - destruct (lt x (- (0.01))) eqn:H1, (gt (- x) 0.01) eqn:H2; try done.
    + apply lt_exact in H1. apply not_true_iff_false in H2.
      exfalso. apply H2, gt_exact. lra.
    + apply gt_exact in H2. apply not_true_iff_false in H1.
      exfalso. apply H1, lt_exact. lra.
Qed.

Lemma tick_mirror (s : KeyboardControl Q) :
  well_formed s ->
  _turning (tick (Some "d") (set_turning (- _turning s) s)) ==
    - _turning (tick (Some "a") s) ∧
  _speed (tick (Some "d") (set_turning (- _turning s) s)) ==
    _speed (tick (Some "a") s) ∧
  _speed (tick (Some "s") (set_speed (- _speed s) s)) ==
    - _speed (tick (Some "w") s) ∧
  _turning (tick (Some "s") (set_speed (- _speed s) s)) ==
    _turning (tick (Some "w") s).
Proof.
  intros [_ [Hsd Htd]].
  destruct s as [sp tu pos op ws gs sd td]; simpl in *; subst sd td.
  unfold tick, key_effect, decay. cbn -[Qmult Qplus Qminus Qopp Qle_bool].
  destruct (mirrored_guards (tu * 0.5)) as [Hg1 _].
  destruct (mirrored_guards (sp * 0.9)) as [_ Hg2].
  cbn -[Qmult Qplus Qminus Qopp Qle_bool] in Hg1, Hg2.
  assert (E1 : - tu * 0.5 == - (tu * 0.5)) by ring.
  assert (E2 : - sp * 0.9 == - (sp * 0.9)) by ring.
  split; [|split; [reflexivity|split; [|reflexivity]]].
  - setoid_rewrite E1. rewrite <- Hg1.
    destruct (negb (Qle_bool (tu * 0.5) 0.01)); [reflexivity|ring].
  - setoid_rewrite E2. rewrite <- Hg2.
    destruct (negb (Qle_bool (- (0.01)) (sp * 0.9))); [reflexivity|ring].
Qed.

(** X18: left and right, forward and backward are mirror images.  Over
    exact arithmetic, "d" on the state with the turning negated leaves the
    negated turning that "a" leaves on the state itself, and "s" on the
    state with the speed negated the negated speed that "w" leaves. *)
Theorem steering_is_mirror_symmetric (s : KeyboardControl Q) agent_type l :
  reachable s ->
  ∃ a1 w1 a2 w2 a3 w3 a4 w4,
    call (Some "a") agent_type s l = Return (a1, w1) ∧
    call (Some "d") agent_type (set_turning (- _turning s) s) l = Return (a2, w2) ∧
    _turning (self w2) == - _turning (self w1) ∧
    _speed (self w2) == _speed (self w1) ∧
    call (Some "w") agent_type s l = Return (a3, w3) ∧
    call (Some "s") agent_type (set_speed (- _speed s) s) l = Return (a4, w4) ∧
    _speed (self w4) == - _speed (self w3) ∧
    _turning (self w4) == _turning (self w3).
Proof.
  intros Hs. apply reachable_well_formed in Hs.
  assert (Hm1 : well_formed (set_turning (- _turning s) s)) by (destruct s; exact Hs).
  assert (Hm2 : well_formed (set_speed (- _speed s) s)) by (destruct s; exact Hs).
  destruct (call_returns (Some "a") agent_type s l Hs) as (a1 & l1 & H1).
  destruct (call_returns (Some "d") agent_type _ l Hm1) as (a2 & l2 & H2).
  destruct (call_returns (Some "w") agent_type s l Hs) as (a3 & l3 & H3).
  destruct (call_returns (Some "s") agent_type _ l Hm2) as (a4 & l4 & H4).
  destruct (tick_mirror s Hs) as (M1 & M2 & M3 & M4).
  eexists _, _, _, _, _, _, _, _.
  split; [exact H1|]. split; [exact H2|]. split; [exact M1|]. split; [exact M2|].
  split; [exact H3|]. split; [exact H4|]. split; [exact M3|exact M4].
Qed.

End FurtherExact.

(** * The further properties at concrete inputs *)

Section FurtherInstances.
Local Open Scope py_scope.

(** An upper-case "W" is not the key "w". *)
Lemma unhandled_key_only_decays_instance :
  reachable (tick (Some "w") (__init__ : KeyboardControl float)) ∧
  Forall (fun c => Some "W" ≠ Some c) key_table ∧
  ∃ actions w',
    call (Some "W") "turtlebot" (tick (Some "w") (__init__ : KeyboardControl float)) [] =
      Return (actions, w') ∧
    _speed (self w') = lit 0.5 * lit 0.9.
Proof.
  assert (Hs : reachable (tick (Some "w") (__init__ : KeyboardControl float))).
  { apply reachable_tick, reachable_init. }
  assert (Hk : Forall (fun c => Some "W" ≠ Some c) key_table).
  { unfold key_table. repeat (constructor; [discriminate|]). constructor. }
  split; [exact Hs|]. split; [exact Hk|].
  destruct (unhandled_key_only_decays _ (Some "W") "turtlebot" [] Hs Hk)
    as (a & w' & Hcall & Hspeed & _).
  exists a, w'. split; [exact Hcall|]. rewrite Hspeed. reflexivity.
Defined.

(** Three "e" among four calls leave the fresh gripper closed. *)
Lemma gripper_flag_follows_parity_of_e_instance :
  reachable (__init__ : KeyboardControl float) ∧
  ∃ history w',
    run [Some "e"; Some "w"; Some "e"; Some "e"] "youbot_noplugin"
      (__init__ : KeyboardControl float) [] = Return (history, w') ∧
    _gripper_open (self w') = false.
Proof.
  assert (Hs : reachable (__init__ : KeyboardControl float)) by apply reachable_init.
  split; [exact Hs|].
  exact (gripper_flag_follows_parity_of_e __init__
           [Some "e"; Some "w"; Some "e"; Some "e"] "youbot_noplugin" [] Hs).
Defined.

(** A "w" on a fresh instance leaves the gripper offset alone. *)
Lemma each_key_writes_its_own_attribute_instance :
  reachable (__init__ : KeyboardControl float) ∧
  ∃ actions w',
    call (Some "w") "turtlebot" (__init__ : KeyboardControl float) [] =
      Return (actions, w') ∧
    _gripper_pos (self w') = [lit 0; lit 0; lit 0].
Proof.
  assert (Hs : reachable (__init__ : KeyboardControl float)) by apply reachable_init.
  split; [exact Hs|].
  destruct (each_key_writes_its_own_attribute __init__ (Some "w") "turtlebot" [] Hs)
    as (a & w' & Hcall & Hpos & _).
  exists a, w'. split; [exact Hcall|]. apply Hpos; discriminate.
Defined.

(** After a "+", [reset()] keeps the wheel step 0.5 * 1.5. *)
Lemma reset_is_fresh_up_to_steps_instance :
  reachable (tick (Some "+") (__init__ : KeyboardControl float)) ∧
  ∃ w',
    reset {| self := tick (Some "+") (__init__ : KeyboardControl float);
             info_log := []; terminal := [] |} = Return ((), w') ∧
    _wheel_step (self w') = lit 0.5 * lit 1.5 ∧
    _speed (self w') = lit 0.
Proof.
  assert (Hs : reachable (tick (Some "+") (__init__ : KeyboardControl float))).
  { apply reachable_tick, reachable_init. }
  split; [exact Hs|].
  destruct (reset_is_fresh_up_to_steps _ [] [] Hs) as (_ & _ & Hreset).
  eexists. split; [exact Hreset|]. split; reflexivity.
Defined.

(** An episode "w", "i", "e" and a reset. *)
Lemma episode_without_step_keys_resets_to_fresh_instance :
  Forall (fun k => k ≠ Some "+" ∧ k ≠ Some "-") [Some "w"; Some "i"; Some "e"] ∧
  ∃ history w1 w2,
    run [Some "w"; Some "i"; Some "e"] "youbot_noplugin"
      (__init__ : KeyboardControl float) [] = Return (history, w1) ∧
    reset w1 = Return ((), w2) ∧
    self w2 = __init__.
Proof.
  assert (Hkeys : Forall (fun k => k ≠ Some "+" ∧ k ≠ Some "-")
                    [Some "w"; Some "i"; Some "e"]).
  { repeat (constructor; [split; discriminate|]). constructor. }
  split; [exact Hkeys|].
  exact (episode_without_step_keys_resets_to_fresh
           [Some "w"; Some "i"; Some "e"] "youbot_noplugin" [] Hkeys).
Defined.

(** A "d" on a fresh instance: the pr2 list repeats the diff-drive pair. *)
Lemma wheel_commands_agree_across_robots_instance :
  reachable (__init__ : KeyboardControl float) ∧
  ∃ L R w1 w3,
    call (Some "d") "pioneer2dx_noplugin" (__init__ : KeyboardControl float) [] =
      Return ([L; R], w1) ∧
    call (Some "d") "pr2_noplugin" (__init__ : KeyboardControl float) [] =
      Return ([L; L; R; R; L; L; R; R], w3).
Proof.
  assert (Hs : reachable (__init__ : KeyboardControl float)) by apply reachable_init.
  split; [exact Hs|].
  destruct (wheel_commands_agree_across_robots __init__ (Some "d") [] Hs)
    as (L & R & w1 & w2 & w3 & y & w4 & H1 & _ & H3 & _).
  exists L, R, w1, w3. split; [exact H1|exact H3].
Defined.

(** "i" on a fresh youbot changes at most element 3. *)
Lemma youbot_keys_move_their_own_joints_instance :
  reachable (__init__ : KeyboardControl float) ∧
  ∃ y0 w0 y w',
    call None "youbot_noplugin" (__init__ : KeyboardControl float) [] =
      Return (y0, w0) ∧
    call (Some "i") "youbot_noplugin" (__init__ : KeyboardControl float) [] =
      Return (y, w') ∧
    take 3 y = take 3 y0 ∧ drop 4 y = drop 4 y0.
Proof.
  assert (Hs : reachable (__init__ : KeyboardControl float)) by apply reachable_init.
  split; [exact Hs|].
  destruct (youbot_keys_move_their_own_joints __init__ (Some "i") [] Hs)
    as (y0 & w0 & y & w' & H0 & H1 & _ & _ & Hi & _).
  exists y0, w0, y, w'. split; [exact H0|]. split; [exact H1|].
  apply Hi. left. reflexivity.
Defined.

(** "k" on a turtlebot returns what no key returns. *)
Lemma gripper_and_step_keys_leave_wheel_actions_instance :
  reachable (tick (Some "w") (__init__ : KeyboardControl float)) ∧
  "turtlebot" ≠ "youbot_noplugin" ∧
  ∃ actions w0 w',
    call None "turtlebot" (tick (Some "w") (__init__ : KeyboardControl float)) [] =
      Return (actions, w0) ∧
    call (Some "k") "turtlebot" (tick (Some "w") (__init__ : KeyboardControl float)) [] =
      Return (actions, w').
Proof.
  assert (Hs : reachable (tick (Some "w") (__init__ : KeyboardControl float))).
  { apply reachable_tick, reachable_init. }
  assert (Hat : "turtlebot" ≠ "youbot_noplugin") by discriminate.
  split; [exact Hs|]. split; [exact Hat|].
  destruct (gripper_and_step_keys_leave_wheel_actions _ (Some "k") "turtlebot" []
              Hs Hat) as (a & w0 & w' & H0 & H1 & _); try discriminate.
  exists a, w0, w'. split; [exact H0|exact H1].
Defined.


(** Three calls for the agent type "icub" log three lines. *)
Lemma log_grows_only_for_unsupported_instance :
  reachable (__init__ : KeyboardControl float) ∧
  ¬ supported "icub" ∧
  ∃ history w',
    calls 3 "icub"
      {| self := (__init__ : KeyboardControl float); info_log := [];
         terminal := [] |} = Return (history, w') ∧
    info_log w' = replicate 3 "agent type not supported yet: icub".
Proof.
  assert (Hs : reachable (__init__ : KeyboardControl float)) by apply reachable_init.
  assert (Hat : ¬ supported "icub").
  { intros [Hat|[Hat|[Hat|Hat]]]; discriminate Hat. }
  split; [exact Hs|]. split; [exact Hat|].
  destruct (log_grows_only_for_unsupported __init__ 3 "icub" [] [] Hs)
    as (h & w' & Hrun & _ & Hlog).
  exists h, w'. split; [exact Hrun|]. exact (proj1 (Hlog Hat)).
Defined.

End FurtherInstances.

Section FurtherExactInstances.
Local Open Scope Q_scope.








Lemma steering_is_mirror_symmetric_instance :
  reachable (tick (Some "d") (__init__ : KeyboardControl Q)) ∧
  ∃ a1 w1 a2 w2,
    call (Some "a") "turtlebot" (tick (Some "d") (__init__ : KeyboardControl Q)) [] =
      Return (a1, w1) ∧
    call (Some "d") "turtlebot"
      (set_turning (- _turning (tick (Some "d") (__init__ : KeyboardControl Q)))
         (tick (Some "d") (__init__ : KeyboardControl Q))) [] = Return (a2, w2) ∧
    _turning (self w2) == - _turning (self w1).
Proof.
  assert (Hs : reachable (tick (Some "d") (__init__ : KeyboardControl Q))).
  { apply reachable_tick, reachable_init. }
  split; [exact Hs|].
  destruct (steering_is_mirror_symmetric _ "turtlebot" [] Hs)
    as (a1 & w1 & a2 & w2 & _ & _ & _ & _ & H1 & H2 & Hm & _).
  exists a1, w1, a2, w2. split; [exact H1|]. split; [exact H2|exact Hm].
Defined.

End FurtherExactInstances.
